(** * sqlalchemy-fsm: the state-machine registry and the bound transitions

    A shallow embedding of [sqlalchemy_fsm/state_machine.py] and
    [sqlalchemy_fsm/transition.py].  Python objects that are shared and
    mutated (registries, states, transitions, records, classes) live in a
    store and are named by references; every method is a computation over
    that store which either returns or raises. *)

From stdpp Require Import gmap strings list fin_maps.

Local Open Scope string_scope.
Local Open Scope list_scope.
Local Open Scope nat_scope.

(** ** Python values

    The values that reach the engine as labels, raw column values and
    comparison arguments: [None], booleans and strings.  On these Python's
    [==] is structural equality, so they can key a [dict] directly. *)

Inductive pyval :=
| PNone
| PBool (b : bool)
| PStr (s : string).

Global Instance pyval_eq_dec : EqDecision pyval.
Proof. solve_decision. Defined.

Global Instance pyval_countable : Countable pyval.
Proof.
  refine (inj_countable'
    (λ v, match v with
          | PNone => inl ()
          | PBool b => inr (inl b)
          | PStr s => inr (inr s)
          end)
    (λ x, match x with
          | inl _ => PNone
          | inr (inl b) => PBool b
          | inr (inr s) => PStr s
          end) _).
  by intros [].
Defined.

(** Python truthiness of a value ([if v:], [assert v]). *)
Definition truthy (v : pyval) : bool :=
  match v with
  | PNone => false
  | PBool b => b
  | PStr s => negb (String.eqb s "")
  end.

(** [isinstance(value, bool)] *)
Definition isinstance_bool (v : pyval) : bool :=
  match v with PBool _ => true | _ => false end.

(** The default [source] of the [transition] decorator. *)
Definition WILDCARD : pyval := PStr "*".

(** Positional and keyword arguments of a call. *)
Record CallArgs := {
  args : list pyval;
  kwargs : list (string * pyval)
}.

(** ** Tables and columns

    What [sqla_inspect(table_class).columns] yields: the columns of the
    mapped class, each with its name and whether its type is an
    [sqltypes.FSMField].  A column is an object of one table: [col_id] tells
    two column objects apart, also when they carry the same name. *)

Record Column := {
  col_id : nat;
  name : string;
  is_FSMField : bool
}.

Global Instance Column_eq_dec : EqDecision Column.
Proof. solve_decision. Defined.

Global Instance Column_countable : Countable Column.
Proof.
  refine (inj_countable' (λ c, (col_id c, name c, is_FSMField c))
                         (λ p, {| col_id := p.1.1; name := p.1.2;
                                  is_FSMField := p.2 |}) _).
  by intros [].
Defined.

(** A mapped class: which class it is, the classes that follow it in its
    [__mro__] (nearest first), and its columns. *)
Record TableClass := {
  cls_id : nat;
  bases : list nat;
  columns : list Column
}.

(** ** Exceptions *)

Inductive exn :=
| SetupError (msg : string) (fields : list Column)
| InvalidSourceStateError (msg : string) (state : positive) (method : string)
| PreconditionError (msg : string)
| KeyError (key : pyval)
| AttributeError (attr : string)
| AssertionError (msg : string)
| IndexError
| DanglingReference.
(* [DanglingReference] is no Python exception: it is what the embedding
   answers when a reference names no object of the store, which a running
   interpreter cannot produce. *)

Inductive result (A : Type) :=
| Ok (a : A)
| Raise (e : exn).
Arguments Ok {A} a.
Arguments Raise {A} e.

(** ** Objects *)

Definition loc := positive.

(** User code attached to a declaration.  A handler reads and writes the
    attributes of the record it is applied to and returns a value; a guard
    reads the record. *)
Definition Attrs := gmap string pyval.
Definition HandlerFn := Attrs → CallArgs → Attrs * pyval.
Definition Guard := Attrs → CallArgs → bool.

(** The decorated subject: a function, or a class with one handler per
    source state. *)
Inductive Subject :=
| SFunction (fn_name : string) (fn : HandlerFn)
| SClass (cls_name : string) (handlers : list (pyval * (string * HandlerFn))).

(** [meta.FSMMeta], as [transition] builds it:
    [FSMMeta(source, target, conditions, (), bound_cls, subject)].  The
    registry reads only [sources] and [target]. *)
Record FSMMeta := {
  sources : list pyval;
  target : pyval;
  conditions : list Guard;
  subject : Subject
}.

Record FSMState := {
  st_parent : loc;
  st_value : pyval
}.

Global Instance FSMState_eq_dec : EqDecision FSMState.
Proof. solve_decision. Defined.

Record FSMStateTransition := {
  tr_parent : loc;
  tr_meta : FSMMeta
}.

Record FiniteStateMachine := {
  table_class : TableClass;
  fsm_column : Column;
  column_name : string;
  states : gmap pyval loc;
  transitions : list loc
}.

(** The SQL expressions the class-bound view hands out: [column == target]
    and the result of [.is_(bool)] on such an expression. *)
Inductive Predicate :=
| PEq (column : Column) (target : pyval)
| PIs (p : Predicate) (b : bool).

Inductive Event :=
| EPrintStates (snapshot : gmap pyval loc)
| EWarn (msg : string) (value : pyval)
| EGuard (index : nat) (outcome : bool)
| EHandler (handler_name : string).

(** ** The store

    [class_handle] holds the attribute [_sa_fsm_sqlalchemy_handle] as set
    on each class itself, keyed by the class; reading the attribute goes
    through the [__mro__] (see [lookup_handle]). *)

Record World := {
  machines : gmap loc FiniteStateMachine;
  state_objs : gmap loc FSMState;
  transition_objs : gmap loc FSMStateTransition;
  class_handle : gmap nat loc;          (* cls.__dict__["_sa_fsm_sqlalchemy_handle"] *)
  instances : gmap loc Attrs;           (* mapped records *)
  equality_cache : gmap (Column * pyval) Predicate;
  events : list Event
}.

Definition empty_world : World :=
  {| machines := ∅; state_objs := ∅; transition_objs := ∅;
     class_handle := ∅; instances := ∅; equality_cache := ∅; events := [] |}.

Definition set_machines (f : gmap loc FiniteStateMachine → gmap loc FiniteStateMachine)
    (w : World) : World :=
  {| machines := f (machines w); state_objs := state_objs w;
     transition_objs := transition_objs w; class_handle := class_handle w;
     instances := instances w; equality_cache := equality_cache w;
     events := events w |}.

Definition set_state_objs (f : gmap loc FSMState → gmap loc FSMState)
    (w : World) : World :=
  {| machines := machines w; state_objs := f (state_objs w);
     transition_objs := transition_objs w; class_handle := class_handle w;
     instances := instances w; equality_cache := equality_cache w;
     events := events w |}.

Definition set_transition_objs
    (f : gmap loc FSMStateTransition → gmap loc FSMStateTransition)
    (w : World) : World :=
  {| machines := machines w; state_objs := state_objs w;
     transition_objs := f (transition_objs w); class_handle := class_handle w;
     instances := instances w; equality_cache := equality_cache w;
     events := events w |}.

Definition set_class_handle (f : gmap nat loc → gmap nat loc) (w : World) : World :=
  {| machines := machines w; state_objs := state_objs w;
     transition_objs := transition_objs w; class_handle := f (class_handle w);
     instances := instances w; equality_cache := equality_cache w;
     events := events w |}.

Definition set_instances (f : gmap loc Attrs → gmap loc Attrs) (w : World) : World :=
  {| machines := machines w; state_objs := state_objs w;
     transition_objs := transition_objs w; class_handle := class_handle w;
     instances := f (instances w); equality_cache := equality_cache w;
     events := events w |}.

Definition set_equality_cache
    (f : gmap (Column * pyval) Predicate → gmap (Column * pyval) Predicate)
    (w : World) : World :=
  {| machines := machines w; state_objs := state_objs w;
     transition_objs := transition_objs w; class_handle := class_handle w;
     instances := instances w; equality_cache := f (equality_cache w);
     events := events w |}.

Definition set_events (f : list Event → list Event) (w : World) : World :=
  {| machines := machines w; state_objs := state_objs w;
     transition_objs := transition_objs w; class_handle := class_handle w;
     instances := instances w; equality_cache := equality_cache w;
     events := f (events w) |}.

(** ** Computations: store passing with exceptions

    A raised exception keeps the store as it was when it was raised. *)

Definition M (A : Type) : Type := World → result A * World.

Definition ret {A} (a : A) : M A := λ w, (Ok a, w).
Definition raise {A} (e : exn) : M A := λ w, (Raise e, w).
Definition bind {A B} (k : A → M B) (m : M A) : M B :=
  λ w, match m w with
       | (Ok a, w') => k a w'
       | (Raise e, w') => (Raise e, w')
       end.

Global Instance M_ret : MRet M := @ret.
Global Instance M_bind : MBind M := @bind.

Definition get_world : M World := λ w, (Ok w, w).
Definition modify (f : World → World) : M unit := λ w, (Ok tt, f w).
Definition emit (e : Event) : M unit := modify (set_events (λ l, l ++ [e])).

Definition lift_result {A} (r : result A) : M A := λ w, (r, w).

(** [for x in xs: body(x)] *)
Fixpoint for_each {A} (body : A → M unit) (xs : list A) : M unit :=
  match xs with
  | [] => mret tt
  | x :: rest => body x ;; for_each body rest
  end.

(** [util.is_valid_literal_state] is imported by [state_machine.py] and
    defined elsewhere; the registry only asks it which of a declaration's
    sources and target name a state of their own. *)
Class Util := {
  is_valid_literal_state : pyval → bool
}.

(** [owner._sa_fsm_sqlalchemy_handle]: an attribute read on a class goes
    through its [__mro__], the class itself first, and yields the attribute
    of the first class that has it; [None] stands for [AttributeError]. *)
Fixpoint first_handle (handles : gmap nat loc) (classes : list nat) : option loc :=
  match classes with
  | [] => None
  | c :: rest =>
      match handles !! c with
      | Some r => Some r
      | None => first_handle handles rest
      end
  end.

Definition lookup_handle (w : World) (owner : TableClass) : option loc :=
  first_handle (class_handle w) (cls_id owner :: bases owner).

(** ** state_machine.py *)

Definition find_fsm_column (table_class : TableClass) : result Column :=
  let fsm_fields := List.filter is_FSMField (columns table_class) in
  if length fsm_fields =? 0 then
    Raise (SetupError "No FSMField found in model" [])
  else if 1 <? length fsm_fields then
    Raise (SetupError "More than one FSMField found in model ({})" fsm_fields)
  else
    match fsm_fields !! 0 with
    | Some col => Ok col
    | None => Raise IndexError
    end.

Definition get_machine (r : loc) : M FiniteStateMachine :=
  λ w, match machines w !! r with
       | Some fsm => (Ok fsm, w)
       | None => (Raise DanglingReference, w)
       end.

Definition put_machine (r : loc) (fsm : FiniteStateMachine) : M unit :=
  modify (set_machines <[r := fsm]>).

(** The registry after [self.states] or [self.transitions] changed in
    place. *)
Definition set_states (f : gmap pyval loc → gmap pyval loc)
    (fsm : FiniteStateMachine) : FiniteStateMachine :=
  {| table_class := table_class fsm; fsm_column := fsm_column fsm;
     column_name := column_name fsm; states := f (states fsm);
     transitions := transitions fsm |}.

Definition set_transitions (f : list loc → list loc)
    (fsm : FiniteStateMachine) : FiniteStateMachine :=
  {| table_class := table_class fsm; fsm_column := fsm_column fsm;
     column_name := column_name fsm; states := states fsm;
     transitions := f (transitions fsm) |}.

(** [with self.access_lock: body].  The embedding runs one thread, which
    finds the lock free and releases it on the way out, whether [body]
    returns or raises. *)
Definition with_lock {A} (r : loc) (body : M A) : M A := body.

Module FiniteStateMachine.

(** The object [FiniteStateMachine(...)] leaves behind once [__init__]
    has filled its slots. *)
Definition new_machine (fsm : FiniteStateMachine) : M loc :=
  λ w, let r := fresh (dom (machines w)) in
       (Ok r, set_machines <[r := fsm]> w).

(** [FiniteStateMachine(table_class)] *)
Definition init (table_class : TableClass) : M loc :=
  fsm_column ← lift_result (find_fsm_column table_class);
  new_machine {| table_class := table_class;
                 fsm_column := fsm_column;
                 column_name := name fsm_column;
                 states := ∅;
                 transitions := [] |}.

Definition get_state (self : loc) (label : pyval) : M loc :=
  fsm ← get_machine self;
  match states fsm !! label with
  | Some st => mret st
  | None => raise (KeyError label)
  end.

(** [FSMState(parent, value)]: a new state object. *)
Definition new_state (parent : loc) (value : pyval) : M loc :=
  λ w, let s := fresh (dom (state_objs w)) in
       (Ok s, set_state_objs <[s := {| st_parent := parent; st_value := value |}]> w).

(** [self.states.setdefault(label, FSMState(self, label))]: the new
    object is built before [setdefault] looks the label up. *)
Definition register_state (self : loc) (label : pyval) : M loc :=
  with_lock self (
    new ← new_state self label;
    fsm ← get_machine self;
    match states fsm !! label with
    | Some st => mret st
    | None =>
        put_machine self (set_states <[label := new]> fsm) ;;
        mret new
    end).

(** [FSMStateTransition(parent, meta)]: a new transition object. *)
Definition new_transition (parent : loc) (meta : FSMMeta) : M loc :=
  λ w, let t := fresh (dom (transition_objs w)) in
       (Ok t, set_transition_objs <[t := {| tr_parent := parent; tr_meta := meta |}]> w).

Definition register_transition `{Util} (self : loc) (meta : FSMMeta) : M loc :=
  transition ← new_transition self meta;
  for_each (λ a_state,
              if is_valid_literal_state a_state
              then register_state self a_state ;; mret tt
              else mret tt)
           (sources meta ++ [target meta]) ;;
  fsm ← get_machine self;
  emit (EPrintStates (states fsm)) ;;
  put_machine self (set_transitions (λ l, l ++ [transition]) fsm) ;;
  mret transition.

End FiniteStateMachine.

Record InstanceBoundStateMachine := {
  cls_fsm : loc;
  instance : loc
}.

(** [getattr(record, attribute)] on a mapped record. *)
Definition getattr_instance (i : loc) (attribute : string) : M pyval :=
  λ w, match instances w !! i with
       | Some attrs =>
           match attrs !! attribute with
           | Some v => (Ok v, w)
           | None => (Raise (AttributeError attribute), w)
           end
       | None => (Raise DanglingReference, w)
       end.

Definition current_raw_value (self : InstanceBoundStateMachine) : M pyval :=
  fsm ← get_machine (cls_fsm self);
  getattr_instance (instance self) (column_name fsm).

Definition current_state (self : InstanceBoundStateMachine) : M loc :=
  raw ← current_raw_value self;
  FiniteStateMachine.get_state (cls_fsm self) raw.

(** ** transition.py *)

(** The function under [@cache.dict_cache]. *)
Definition sql_equality_cache (key : Column * pyval) : result Predicate :=
  let '(column, target) := key in
  if truthy target then Ok (PEq column target)
  else Raise (AssertionError "Target must be defined.").

(** Modelled from the spec: [cache.dict_cache] is defined outside these
    sources.  Section 4.6: [getValue(key)] is memoized by the composite key
    and computed once per distinct key. *)
Definition get_value (key : Column * pyval) : M Predicate :=
  λ w, match equality_cache w !! key with
       | Some p => (Ok p, w)
       | None =>
           match sql_equality_cache key with
           | Ok p => (Ok p, set_equality_cache <[key := p]> w)
           | Raise e => (Raise e, w)
           end
       end.

(** The object behind [_sa_fsm_bound_meta]: the methods [set],
    [can_proceed] and [__call__] invoke on it. *)
Record BoundMeta := {
  transition_possible : M bool;
  conditions_met : CallArgs → M bool;
  to_next_state : CallArgs → M pyval;
  bm_current_state : M loc;
  bm_target_state : M loc
}.

(** What an entry of an object's [__dict__] can hold. *)
Inductive AttrVal :=
| ABoundMeta (bm : BoundMeta)
| AFunction (fn_name : string)
| AHandle (r : loc)
| AMeta (m : FSMMeta)
| AValue (v : pyval).

(** [self.<attribute>] for a name that is neither a slot nor defined on
    the class: the instance [__dict__] decides, and a miss raises. *)
Definition getattr (d : gmap string AttrVal) (attribute : string) : M AttrVal :=
  match d !! attribute with
  | Some a => mret a
  | None => raise (AttributeError attribute)
  end.

Record ClassBoundFsmTransition := {
  cb_sa_fsm_owner_cls : TableClass;
  cb_state_machine : loc;
  cb_transition : loc;
  cb_dict : gmap string AttrVal
}.

Record InstanceBoundFsmTransition := {
  ib_sa_fsm_owner_cls : TableClass;
  ib_state_machine : InstanceBoundStateMachine;
  ib_transition : loc;
  ib_sa_fsm_self : loc;
  ib_dict : gmap string AttrVal
}.

Inductive BoundTransition :=
| ClassBound (b : ClassBoundFsmTransition)
| InstanceBound (b : InstanceBoundFsmTransition).

Module ClassBoundFsmTransition.

(** [__init__] fills the three slots and nothing else. *)
Definition init (state_machine transition : loc) (owner_cls : TableClass)
    : ClassBoundFsmTransition :=
  {| cb_sa_fsm_owner_cls := owner_cls;
     cb_state_machine := state_machine;
     cb_transition := transition;
     cb_dict := ∅ |}.

(** [__call__] *)
Definition call (self : ClassBoundFsmTransition) : M Predicate :=
  handle ← getattr (cb_dict self) "_sa_fsm_sqla_handle";
  column ← match handle with
           | AHandle r => fsm ← get_machine r; mret (fsm_column fsm)
           | _ => raise (AttributeError "fsm_column")
           end;
  meta ← getattr (cb_dict self) "_sa_fsm_meta";
  target ← match meta with
           | AMeta m => mret (target m)
           | _ => raise (AttributeError "target")
           end;
  get_value (column, target).

Definition is_ (self : ClassBoundFsmTransition) (value : pyval)
    : M (Predicate + pyval) :=
  match value with
  | PBool b =>
      p ← call self;
      mret (inl (PIs p b))
  | _ =>
      emit (EWarn "Unexpected is_ argument: {!r}" value) ;;
      mret (inr (PBool false))
  end.

End ClassBoundFsmTransition.

Module InstanceBoundFsmTransition.

(** [__init__] wraps the registry and the record in an
    [InstanceBoundStateMachine] and fills the four slots. *)
Definition init (cls_state_machine transition : loc) (owner_cls : TableClass)
    (instance : loc) : InstanceBoundFsmTransition :=
  {| ib_sa_fsm_owner_cls := owner_cls;
     ib_state_machine := {| cls_fsm := cls_state_machine; instance := instance |};
     ib_transition := transition;
     ib_sa_fsm_self := instance;
     ib_dict := ∅ |}.

Definition bound_meta_of (a : AttrVal) (method : string) : M BoundMeta :=
  match a with
  | ABoundMeta bm => mret bm
  | _ => raise (AttributeError method)
  end.

Definition name_of (a : AttrVal) : M string :=
  match a with
  | AFunction fn_name => mret fn_name
  | _ => raise (AttributeError "__name__")
  end.

(** [__call__] *)
Definition call (self : InstanceBoundFsmTransition) : M bool :=
  a ← getattr (ib_dict self) "_sa_fsm_bound_meta";
  bm ← bound_meta_of a "target_state";
  t ← bm_target_state bm;
  c ← bm_current_state bm;
  mret (bool_decide (t = c)).

Definition set (self : InstanceBoundFsmTransition) (a : CallArgs) : M pyval :=
  bound_meta ← getattr (ib_dict self) "_sa_fsm_bound_meta";
  func ← getattr (ib_dict self) "_sa_fsm_transition_fn";
  bm ← bound_meta_of bound_meta "transition_possible";
  possible ← transition_possible bm;
  if negb possible then
    st ← bm_current_state bm;
    fn_name ← name_of func;
    raise (InvalidSourceStateError
             "Unable to switch from {} using method {}" st fn_name)
  else
    met ← conditions_met bm a;
    if negb met then
      raise (PreconditionError "Preconditions are not satisfied.")
    else
      to_next_state bm a.

Definition can_proceed (self : InstanceBoundFsmTransition) (a : CallArgs)
    : M bool :=
  bound_meta ← getattr (ib_dict self) "_sa_fsm_bound_meta";
  bm ← bound_meta_of bound_meta "transition_possible";
  transition_possible bm ≫= λ possible : bool,
  if possible then conditions_met bm a else mret false.

End InstanceBoundFsmTransition.

Module FsmTransition.

(** [owner._sa_fsm_sqlalchemy_handle], built and stored on [owner] itself
    when the read raises [AttributeError]. *)
Definition machine_root (owner : TableClass) : M loc :=
  get_world ≫= λ w : World,
  match lookup_handle w owner with
  | Some r => mret r
  | None =>
      fsm_machine_root ← FiniteStateMachine.init owner;
      modify (set_class_handle <[cls_id owner := fsm_machine_root]>) ;;
      mret fsm_machine_root
  end.

(** [__get__(self, instance, owner)], with [self.meta] for [self]. *)
Definition get `{Util} (meta : FSMMeta) (instance : option loc)
    (owner : TableClass) : M BoundTransition :=
  fsm_machine_root ← machine_root owner;
  fsm_transition ← FiniteStateMachine.register_transition fsm_machine_root meta;
  match instance with
  | None =>
      mret (ClassBound
              (ClassBoundFsmTransition.init fsm_machine_root fsm_transition owner))
  | Some i =>
      mret (InstanceBound
              (InstanceBoundFsmTransition.init fsm_machine_root fsm_transition
                 owner i))
  end.

End FsmTransition.

(** ** The collaborators that live outside these two files *)

(** Modelled from the spec: [util.is_valid_literal_state] is defined
    outside these sources.  Sections 3 and 4.2: a literal state is a label
    of its own, a non-empty string, and never the wildcard marker. *)
Definition literal_util : Util :=
  {| is_valid_literal_state v :=
       match v with
       | PStr s => negb (String.eqb s "*") && negb (String.eqb s "")
       | _ => false
       end |}.

Definition get_attrs (i : loc) : M Attrs :=
  λ w, match instances w !! i with
       | Some attrs => (Ok attrs, w)
       | None => (Raise DanglingReference, w)
       end.

Module SpecBound.

(** Modelled from the spec: [bound.py] is defined outside these sources.
    Section 4.4: the transition is possible iff the record's current raw
    value is among the sources, or the sources are the wildcard marker. *)
Definition transition_possible (sm : InstanceBoundStateMachine) (meta : FSMMeta)
    : M bool :=
  raw ← current_raw_value sm;
  mret (bool_decide (raw ∈ sources meta)
        || bool_decide (sources meta = [WILDCARD])).

(** Modelled from the spec: section 4.4, guards are evaluated in
    declaration order and evaluation stops at the first that fails. *)
Fixpoint eval_conditions (index : nat) (gs : list Guard) (attrs : Attrs)
    (a : CallArgs) : M bool :=
  match gs with
  | [] => mret true
  | g :: rest =>
      emit (EGuard index (g attrs a)) ;;
      if g attrs a then eval_conditions (S index) rest attrs a else mret false
  end.

(** Modelled from the spec: section 4.4, [conditionsMet]. *)
Definition conditions_met (sm : InstanceBoundStateMachine) (meta : FSMMeta)
    (a : CallArgs) : M bool :=
  attrs ← get_attrs (instance sm);
  eval_conditions 0 (conditions meta) attrs a.

(** Modelled from the spec: section 4.4, one handler call; the handler
    writes the record and its result is handed back as it is. *)
Definition run_handler (i : loc) (handler_name : string) (fn : HandlerFn)
    (a : CallArgs) : M pyval :=
  attrs ← get_attrs i;
  emit (EHandler handler_name) ;;
  modify (set_instances <[i := (fn attrs a).1]>) ;;
  mret (fn attrs a).2.

Fixpoint lookup_handler (raw : pyval) (hs : list (pyval * (string * HandlerFn)))
    : option (string * HandlerFn) :=
  match hs with
  | [] => None
  | (k, h) :: rest => if decide (k = raw) then Some h else lookup_handler raw rest
  end.

(** Modelled from the spec: section 4.4, the dispatch step of [execute]:
    the single callable, or the entry of the multi-source dispatcher for
    the record's current literal source state. *)
Definition to_next_state (sm : InstanceBoundStateMachine) (meta : FSMMeta)
    (a : CallArgs) : M pyval :=
  match subject meta with
  | SFunction fn_name fn => run_handler (instance sm) fn_name fn a
  | SClass _ handlers =>
      raw ← current_raw_value sm;
      match lookup_handler raw handlers with
      | Some (fn_name, fn) => run_handler (instance sm) fn_name fn a
      | None => raise (KeyError raw)
      end
  end.

Definition bound_meta (sm : InstanceBoundStateMachine) (meta : FSMMeta)
    : BoundMeta :=
  Build_BoundMeta
    (transition_possible sm meta)
    (conditions_met sm meta)
    (to_next_state sm meta)
    (current_state sm)
    (FiniteStateMachine.get_state (cls_fsm sm) (target meta)).

End SpecBound.

(** An instance-bound view on which the two names [set] reads have been
    bound by hand.  Nothing in these sources performs this binding. *)
Definition with_bound_attrs (self : InstanceBoundFsmTransition) (bm : BoundMeta)
    (fn_name : string) : InstanceBoundFsmTransition :=
  {| ib_sa_fsm_owner_cls := ib_sa_fsm_owner_cls self;
     ib_state_machine := ib_state_machine self;
     ib_transition := ib_transition self;
     ib_sa_fsm_self := ib_sa_fsm_self self;
     ib_dict := <["_sa_fsm_bound_meta" := ABoundMeta bm]>
                  (<["_sa_fsm_transition_fn" := AFunction fn_name]> (ib_dict self)) |}.

(** The same for the two names the class-bound [__call__] reads. *)
Definition with_handle_attrs (self : ClassBoundFsmTransition) (handle : loc)
    (meta : FSMMeta) : ClassBoundFsmTransition :=
  {| cb_sa_fsm_owner_cls := cb_sa_fsm_owner_cls self;
     cb_state_machine := cb_state_machine self;
     cb_transition := cb_transition self;
     cb_dict := <["_sa_fsm_sqla_handle" := AHandle handle]>
                  (<["_sa_fsm_meta" := AMeta meta]> (cb_dict self)) |}.

(** ** A small model used to run the definitions *)

Module Example.

Definition state_col : Column :=
  {| col_id := 1; name := "state"; is_FSMField := true |}.
Definition title_col : Column :=
  {| col_id := 2; name := "title"; is_FSMField := false |}.
Definition other_col : Column :=
  {| col_id := 3; name := "status"; is_FSMField := true |}.

Definition Article : TableClass :=
  {| cls_id := 1; bases := []; columns := [title_col; state_col] |}.
Definition NoField : TableClass :=
  {| cls_id := 2; bases := []; columns := [title_col] |}.
Definition TwoFields : TableClass :=
  {| cls_id := 3; bases := []; columns := [state_col; title_col; other_col] |}.

(** A handler that moves the record to ["review"] and returns ["done"]. *)
Definition to_review : HandlerFn :=
  λ attrs _, (<["state" := PStr "review"]> attrs, PStr "done").

Definition submit : FSMMeta :=
  {| sources := [PStr "draft"]; target := PStr "review";
     conditions := []; subject := SFunction "submit" to_review |}.

Definition publish : FSMMeta :=
  {| sources := [WILDCARD]; target := PStr "published";
     conditions := [λ _ _, false]; subject := SFunction "publish" to_review |}.

Definition no_args : CallArgs := {| args := []; kwargs := [] |}.

(** One record of [Article], in state ["draft"]. *)
Definition record : loc := 1%positive.
Definition world0 : World :=
  set_instances <[record := {["state" := PStr "draft"]}]> empty_world.

(** The store after [record.submit] has been read once. *)
Definition world1 : World :=
  (FsmTransition.get (H := literal_util) submit (Some record) Article world0).2.

(** The registry of [Article] in [world1]. *)
Definition registry : loc := 1%positive.
Definition machine1 : FiniteStateMachine :=
  {| table_class := Article; fsm_column := state_col; column_name := "state";
     states := {[ PStr "draft" := 1%positive; PStr "review" := 2%positive ]};
     transitions := [1%positive] |}.

(** The views [record.submit] and [Article.submit] evaluate to. *)
Definition record_submit : InstanceBoundFsmTransition :=
  InstanceBoundFsmTransition.init registry 1%positive Article record.
Definition Article_submit : ClassBoundFsmTransition :=
  ClassBoundFsmTransition.init registry 1%positive Article.

End Example.

(** The [state_machine] and [transition] slots of a bound view; for the
    instance-bound view the registry sits behind its
    [InstanceBoundStateMachine]. *)
Definition view_machine (v : BoundTransition) : loc :=
  match v with
  | ClassBound b => cb_state_machine b
  | InstanceBound b => cls_fsm (ib_state_machine b)
  end.

Definition view_transition (v : BoundTransition) : loc :=
  match v with
  | ClassBound b => cb_transition b
  | InstanceBound b => ib_transition b
  end.

(** A sequence of attribute accesses [owner.attr] / [record.attr], each
    running [FsmTransition.__get__]; an access that raises leaves the store
    as the exception found it. *)
Record Access := {
  acc_meta : FSMMeta;
  acc_instance : option loc;
  acc_owner : TableClass
}.

Fixpoint accesses `{Util} (l : list Access) (w : World) : World :=
  match l with
  | [] => w
  | a :: rest =>
      accesses rest (FsmTransition.get (acc_meta a) (acc_instance a) (acc_owner a) w).2
  end.

(** [register_state] for each label in turn. *)
Fixpoint register_states (self : loc) (labels : list pyval) (w : World) : World :=
  match labels with
  | [] => w
  | label :: rest =>
      register_states self rest (FiniteStateMachine.register_state self label w).2
  end.

(** [register_transition] for each declaration in turn. *)
Fixpoint register_transitions `{Util} (self : loc) (metas : list FSMMeta)
    (w : World) : World :=
  match metas with
  | [] => w
  | meta :: rest =>
      register_transitions self rest
        (FiniteStateMachine.register_transition self meta w).2
  end.

(** The registry named by [r], when there is one. *)
Definition states_of (w : World) (r : loc) : gmap pyval loc :=
  match machines w !! r with
  | Some fsm => states fsm
  | None => ∅
  end.

Definition transitions_of (w : World) (r : loc) : list loc :=
  match machines w !! r with
  | Some fsm => transitions fsm
  | None => []
  end.

(** ** Growth of the store

    Registries are only ever extended: their table, column and column name
    stay, their states map and transition list grow. *)

Definition machine_le (a b : FiniteStateMachine) : Prop :=
  table_class a = table_class b ∧ fsm_column a = fsm_column b ∧
  column_name a = column_name b ∧ states a ⊆ states b ∧
  transitions a `prefix_of` transitions b.

Definition world_le (w w' : World) : Prop :=
  (∀ r fsm, machines w !! r = Some fsm →
            ∃ fsm', machines w' !! r = Some fsm' ∧ machine_le fsm fsm') ∧
  class_handle w ⊆ class_handle w' ∧
  state_objs w ⊆ state_objs w' ∧
  transition_objs w ⊆ transition_objs w' ∧
  instances w = instances w'.

Definition mono {A} (m : M A) : Prop := ∀ w, world_le w (m w).2.

(** Every entry of the states map names a state object carrying the key
    as its value and the registry as its parent. *)
Definition states_labelled (w : World) (self : loc) : Prop :=
  map_Forall
    (λ k s, state_objs w !! s = Some {| st_parent := self; st_value := k |})
    (states_of w self).

(** No two entries of the states map are distinct state objects with the
    same label. *)
Definition one_state_per_label (w : World) (self : loc) : Prop :=
  ∀ k1 k2 s1 s2 o1 o2,
    states_of w self !! k1 = Some s1 → states_of w self !! k2 = Some s2 →
    state_objs w !! s1 = Some o1 → state_objs w !! s2 = Some o2 →
    st_value o1 = st_value o2 → s1 = s2.

(** The entries of a transition list are transition objects of registry
    [r] made for declaration [meta]. *)
Definition entries_for (w : World) (r : loc) (meta : FSMMeta) (l : list loc) : Prop :=
  Forall (λ t, transition_objs w !! t = Some {| tr_parent := r; tr_meta := meta |}) l.

(** The registry [owner._sa_fsm_sqlalchemy_handle] evaluates to, if any,
    is an object of the store. *)
Definition handle_ok (w : World) (owner : TableClass) : Prop :=
  match lookup_handle w owner with
  | Some r => is_Some (machines w !! r)
  | None => True
  end.

Global Instance handle_ok_dec (w : World) (owner : TableClass) :
  Decision (handle_ok w owner).
Proof. unfold handle_ok. destruct (lookup_handle w owner); apply _. Defined.

(** ** Further objects of the example model *)

Module Scenario.

(** A declaration with a wildcard source and no target. *)
Definition reset : FSMMeta :=
  {| sources := [WILDCARD]; target := PNone; conditions := [];
     subject := SFunction "reset" Example.to_review |}.

(** [class Feature(Article)]: a mapped subclass of [Article], with the
    columns of its own mapper. *)
Definition Feature : TableClass :=
  {| cls_id := 4; bases := [cls_id Example.Article];
     columns := [{| col_id := 4; name := "title"; is_FSMField := false |};
                 {| col_id := 5; name := "state"; is_FSMField := true |}] |}.

(** [record.submit] with the two names [set] reads bound by hand. *)
Definition bound_submit : InstanceBoundFsmTransition :=
  with_bound_attrs Example.record_submit
    (SpecBound.bound_meta (ib_state_machine Example.record_submit) Example.submit)
    "submit".

(** The store after [record.submit], [Article.publish] and
    [Article.submit] were read in this order, and the last view. *)
Definition world3 : World :=
  (FsmTransition.get (H := literal_util) Example.submit None Example.Article
     (accesses (H := literal_util)
        [{| acc_meta := Example.publish; acc_instance := None;
            acc_owner := Example.Article |}] Example.world1)).2.

Definition Article_submit_again : ClassBoundFsmTransition :=
  ClassBoundFsmTransition.init Example.registry 3%positive Example.Article.

End Scenario.

(** ** Unfolding the computations *)

Ltac munfold :=
  unfold mbind, M_bind, bind, mret, M_ret, ret, raise, lift_result, modify,
    emit, get_world, with_lock, get_machine, put_machine in *.

Lemma bind_eq {A B} (m : M A) (k : A → M B) (w : World) :
  (m ≫= k) w = match m w with
               | (Ok a, w') => k a w'
               | (Raise e, w') => (Raise e, w')
               end.
Proof. reflexivity. Qed.

Lemma find_fsm_column_cases (tc : TableClass) :
  match List.filter is_FSMField (columns tc) with
  | [] => find_fsm_column tc = Raise (SetupError "No FSMField found in model" [])
  | [col] => find_fsm_column tc = Ok col
  | fields =>
      find_fsm_column tc =
        Raise (SetupError "More than one FSMField found in model ({})" fields)
  end.
Proof.
  unfold find_fsm_column.
  destruct (List.filter is_FSMField (columns tc)) as [|c [|c' l]]; reflexivity.
Qed.

Lemma init_raise (tc : TableClass) (e : exn) (w : World) :
  find_fsm_column tc = Raise e → FiniteStateMachine.init tc w = (Raise e, w).
Proof. intros E. unfold FiniteStateMachine.init. munfold. by rewrite E. Qed.

Lemma init_ok (tc : TableClass) (col : Column) (w : World) :
  find_fsm_column tc = Ok col →
  FiniteStateMachine.init tc w =
    (Ok (fresh (dom (machines w))),
     set_machines
       <[fresh (dom (machines w)) :=
           {| table_class := tc; fsm_column := col; column_name := name col;
              states := ∅; transitions := [] |}]> w).
Proof. intros E. unfold FiniteStateMachine.init. munfold. by rewrite E. Qed.

Lemma lookup_handle_own (w : World) (owner : TableClass) (r : loc) :
  class_handle w !! cls_id owner = Some r → lookup_handle w owner = Some r.
Proof. intros E. unfold lookup_handle. simpl. by rewrite E. Qed.

Lemma lookup_handle_none_own (w : World) (owner : TableClass) :
  lookup_handle w owner = None → class_handle w !! cls_id owner = None.
Proof.
  unfold lookup_handle. simpl. by destruct (class_handle w !! cls_id owner).
Qed.

Lemma lookup_handle_ext (w w' : World) (owner : TableClass) :
  class_handle w' = class_handle w → lookup_handle w' owner = lookup_handle w owner.
Proof. intros E. unfold lookup_handle. by rewrite E. Qed.

Lemma fresh_machine (w : World) : machines w !! fresh (dom (machines w)) = None.
Proof. apply not_elem_of_dom, is_fresh. Qed.

Lemma fresh_state (w : World) : state_objs w !! fresh (dom (state_objs w)) = None.
Proof. apply not_elem_of_dom, is_fresh. Qed.

Lemma fresh_transition (w : World) :
  transition_objs w !! fresh (dom (transition_objs w)) = None.
Proof. apply not_elem_of_dom, is_fresh. Qed.

Lemma register_state_eq (self : loc) (label : pyval) (w : World) :
  FiniteStateMachine.register_state self label w =
    let s := fresh (dom (state_objs w)) in
    let w1 := set_state_objs <[s := {| st_parent := self; st_value := label |}]> w in
    match machines w !! self with
    | None => (Raise DanglingReference, w1)
    | Some fsm =>
        match states fsm !! label with
        | Some st => (Ok st, w1)
        | None =>
            (Ok s, set_machines <[self := set_states <[label := s]> fsm]> w1)
        end
    end.
Proof.
  unfold FiniteStateMachine.register_state, FiniteStateMachine.new_state.
  munfold. simpl.
  destruct (machines w !! self) as [fsm|]; [|done].
  by destruct (states fsm !! label).
Qed.

(** ** The store only grows *)

Lemma machine_le_refl (fsm : FiniteStateMachine) : machine_le fsm fsm.
Proof. by repeat split. Qed.

Lemma machine_le_trans (a b c : FiniteStateMachine) :
  machine_le a b → machine_le b c → machine_le a c.
Proof.
  intros (?&?&?&?&?) (?&?&?&?&?).
  repeat split; try congruence; by etrans.
Qed.

Lemma world_le_refl (w : World) : world_le w w.
Proof.
  repeat split; try done.
  intros r fsm E. exists fsm. split; [done | apply machine_le_refl].
Qed.

Lemma world_le_trans (a b c : World) : world_le a b → world_le b c → world_le a c.
Proof.
  intros (M1&?&?&?&?) (M2&?&?&?&?).
  repeat split; try (by etrans).
  intros r fsm E. destruct (M1 _ _ E) as (fsm'&E'&L).
  destruct (M2 _ _ E') as (fsm''&E''&L').
  exists fsm''. split; [done | by eapply machine_le_trans].
Qed.

Lemma mono_ret {A} (a : A) : mono (mret a).
Proof. intros w. apply world_le_refl. Qed.

Lemma mono_raise {A} (e : exn) : mono (raise (A:=A) e).
Proof. intros w. apply world_le_refl. Qed.

Lemma mono_bind {A B} (m : M A) (k : A → M B) :
  mono m → (∀ a, mono (k a)) → mono (m ≫= k).
Proof.
  intros Hm Hk w. rewrite bind_eq. specialize (Hm w).
  destruct (m w) as [[a|e] w']; simpl in *; [|done].
  eapply world_le_trans; [done | apply Hk].
Qed.

Lemma mono_for_each {A} (body : A → M unit) (xs : list A) :
  (∀ x, mono (body x)) → mono (for_each body xs).
Proof.
  intros Hb. induction xs as [|x xs IH]; simpl.
  - apply mono_ret.
  - apply mono_bind; [apply Hb | done].
Qed.

Lemma world_le_set_state_objs (w : World) (s : loc) (o : FSMState) :
  state_objs w !! s = None → world_le w (set_state_objs <[s := o]> w).
Proof.
  intros Hs. repeat split; simpl; try done.
  - intros r fsm E. exists fsm. split; [done | apply machine_le_refl].
  - by apply insert_subseteq.
Qed.

Lemma world_le_set_machine (w : World) (r : loc) (fsm fsm' : FiniteStateMachine) :
  machines w !! r = Some fsm → machine_le fsm fsm' →
  world_le w (set_machines <[r := fsm']> w).
Proof.
  intros E L. repeat split; simpl; try done.
  intros r0 fsm0 E0. destruct (decide (r = r0)) as [->|Hne].
  - rewrite lookup_insert_eq. exists fsm'. split; [done | congruence].
  - rewrite lookup_insert_ne by done. exists fsm0.
    split; [done | apply machine_le_refl].
Qed.

Lemma mono_register_state (self : loc) (label : pyval) :
  mono (FiniteStateMachine.register_state self label).
Proof.
  intros w. rewrite register_state_eq. cbv zeta.
  pose proof (world_le_set_state_objs w _
    {| st_parent := self; st_value := label |} (fresh_state w)) as L1.
  destruct (machines w !! self) as [fsm|] eqn:E; [|done].
  destruct (states fsm !! label) eqn:El; [done|]. simpl.
  eapply world_le_trans; [exact L1|].
  apply (world_le_set_machine _ self fsm); [done|].
  repeat split; simpl; try done. by apply insert_subseteq.
Qed.

Lemma mono_register_transition `{Util} (self : loc) (meta : FSMMeta) :
  mono (FiniteStateMachine.register_transition self meta).
Proof.
  unfold FiniteStateMachine.register_transition.
  apply mono_bind.
  { intros w. unfold FiniteStateMachine.new_transition. simpl.
    repeat split; simpl; try done.
    - intros r fsm E. exists fsm. split; [done | apply machine_le_refl].
    - apply insert_subseteq, fresh_transition. }
  intros t. apply mono_bind.
  { apply mono_for_each. intros x.
    destruct (is_valid_literal_state x); [|apply mono_ret].
    apply mono_bind; [apply mono_register_state | intros; apply mono_ret]. }
  intros _ w. munfold. simpl.
  destruct (machines w !! self) as [fsm|] eqn:E; simpl; [|apply world_le_refl].
  repeat split; simpl; try done.
  intros r0 fsm0 E0. destruct (decide (self = r0)) as [->|Hne].
  - rewrite lookup_insert_eq. eexists. split; [done|].
    assert (fsm0 = fsm) as -> by congruence.
    repeat split; simpl; try done. by apply prefix_app_r.
  - rewrite lookup_insert_ne by done. exists fsm0.
    split; [done | apply machine_le_refl].
Qed.

Lemma mono_machine_root (owner : TableClass) : mono (FsmTransition.machine_root owner).
Proof.
  intros w. unfold FsmTransition.machine_root. munfold. simpl.
  destruct (lookup_handle w owner) as [r|] eqn:E; simpl;
    [apply world_le_refl|].
  apply lookup_handle_none_own in E.
  unfold FiniteStateMachine.init, FiniteStateMachine.new_machine. munfold.
  destruct (find_fsm_column owner) as [col|e]; simpl; [|apply world_le_refl].
  repeat split; simpl; try done.
  - intros r0 fsm0 E0. rewrite lookup_insert_ne.
    + exists fsm0. split; [done | apply machine_le_refl].
    + intros <-. by rewrite fresh_machine in E0.
  - by apply insert_subseteq.
Qed.

Lemma mono_get `{Util} (meta : FSMMeta) (i : option loc) (owner : TableClass) :
  mono (FsmTransition.get meta i owner).
Proof.
  unfold FsmTransition.get.
  apply mono_bind; [apply mono_machine_root|]. intros r.
  apply mono_bind; [apply mono_register_transition|]. intros t.
  destruct i; apply mono_ret.
Qed.

Lemma accesses_le `{Util} (l : list Access) (w : World) : world_le w (accesses l w).
Proof.
  revert w. induction l as [|a l IH]; intros w; simpl.
  - apply world_le_refl.
  - eapply world_le_trans; [apply mono_get | apply IH].
Qed.

(** ** Attribute resolution (section 4.1) *)

(** C4.  Building a registry for a record type raises [SetupError] when the
    type declares no FSM state column, raises [SetupError] when it declares
    more than one, and when it declares exactly one the construction
    succeeds, yields a new registry holding that column's name, and the
    name stays through every later attribute access on any type. *)
Theorem find_fsm_column_resolution `{Util} (tc : TableClass) (w : World)
    (later : list Access) :
  match List.filter is_FSMField (columns tc) with
  | [] =>
      ∃ msg fields,
        find_fsm_column tc = Raise (SetupError msg fields) ∧
        FiniteStateMachine.init tc w = (Raise (SetupError msg fields), w)
  | [col] =>
      col ∈ columns tc ∧ is_FSMField col = true ∧
      find_fsm_column tc = Ok col ∧
      ∃ r w' fsm fsm',
        FiniteStateMachine.init tc w = (Ok r, w') ∧
        machines w !! r = None ∧
        machines w' !! r = Some fsm ∧
        fsm_column fsm = col ∧ column_name fsm = name col ∧
        machines (accesses later w') !! r = Some fsm' ∧
        fsm_column fsm' = col ∧ column_name fsm' = name col
  | _ :: _ :: _ =>
      ∃ msg fields,
        find_fsm_column tc = Raise (SetupError msg fields) ∧
        FiniteStateMachine.init tc w = (Raise (SetupError msg fields), w)
  end.
Proof.
  pose proof (find_fsm_column_cases tc) as Hc.
  destruct (List.filter is_FSMField (columns tc)) as [|col [|col' rest]] eqn:Hf.
  - do 2 eexists. split; [exact Hc | by apply init_raise].
  - assert (col ∈ List.filter is_FSMField (columns tc)) as Hin
      by (rewrite Hf; apply list_elem_of_here).
    apply list_elem_of_In, filter_In in Hin as [Hin Hfsm].
    apply list_elem_of_In in Hin.
    split; [done|]. split; [done|]. split; [done|].
    set (r := fresh (dom (machines w))).
    set (fsm := {| table_class := tc; fsm_column := col; column_name := name col;
                   states := ∅; transitions := [] |}).
    set (w' := set_machines <[r := fsm]> w).
    assert (machines w' !! r = Some fsm) as E' by apply lookup_insert_eq.
    destruct (accesses_le later w') as (Hm&_).
    destruct (Hm _ _ E') as (fsm'&E''&(_&Hcol&Hname&_)).
    exists r, w', fsm, fsm'.
    split; [by apply init_ok|]. split; [apply fresh_machine|].
    repeat split; try done; simpl in *; congruence.
  - do 2 eexists. split; [exact Hc | by apply init_raise].
Qed.

(** ** Registry lookups (section 4.2) *)

Lemma register_state_step (self : loc) (label : pyval) (w : World)
    (fsm : FiniteStateMachine) :
  machines w !! self = Some fsm →
  ∃ s w' fsm',
    FiniteStateMachine.register_state self label w = (Ok s, w') ∧
    machines w' !! self = Some fsm' ∧
    states fsm' = <[label := s]> (states fsm) ∧
    transitions fsm' = transitions fsm ∧
    (states fsm !! label = Some s ∨
     states fsm !! label = None ∧ s = fresh (dom (state_objs w))) ∧
    state_objs w' =
      <[fresh (dom (state_objs w)) := {| st_parent := self; st_value := label |}]>
        (state_objs w).
Proof.
  intros E. rewrite register_state_eq. cbv zeta. rewrite E.
  destruct (states fsm !! label) as [st|] eqn:El.
  - exists st, (set_state_objs
                  <[fresh (dom (state_objs w)) :=
                      {| st_parent := self; st_value := label |}]> w), fsm.
    repeat split; simpl; try done.
    + by rewrite insert_id.
    + by left.
  - eexists _, _, _. split; [done|]. simpl. rewrite lookup_insert_eq.
    repeat split; simpl; try done. by right.
Qed.

Lemma register_state_labelled (self : loc) (label : pyval) (w : World)
    (fsm : FiniteStateMachine) :
  machines w !! self = Some fsm → states_labelled w self →
  states_labelled (FiniteStateMachine.register_state self label w).2 self.
Proof.
  intros E HL.
  destruct (register_state_step self label w fsm E)
    as (s&w'&fsm'&Hr&E'&Hst&_&Hcase&Hobjs).
  rewrite Hr. simpl. intros k s0. unfold states_of. rewrite E', Hst, Hobjs.
  unfold states_labelled, states_of in HL. rewrite E in HL.
  pose proof (fresh_state w) as Hfresh.
  destruct (decide (label = k)) as [->|Hne].
  - rewrite lookup_insert_eq. intros [= <-].
    destruct Hcase as [Hold|[_ ->]].
    + specialize (HL _ _ Hold). rewrite lookup_insert_ne; [done|].
      intros <-. congruence.
    + by rewrite lookup_insert_eq.
  - rewrite lookup_insert_ne by done. intros Hk. specialize (HL _ _ Hk).
    rewrite lookup_insert_ne; [done|]. intros <-. congruence.
Qed.

Lemma register_states_spec (self : loc) (labels : list pyval) (w : World)
    (fsm : FiniteStateMachine) :
  machines w !! self = Some fsm →
  ∃ fsm',
    machines (register_states self labels w) !! self = Some fsm' ∧
    transitions fsm' = transitions fsm ∧
    states fsm ⊆ states fsm' ∧
    (∀ k, is_Some (states fsm' !! k) ↔ is_Some (states fsm !! k) ∨ k ∈ labels) ∧
    (states_labelled w self → states_labelled (register_states self labels w) self).
Proof.
  revert w fsm. induction labels as [|label rest IH]; intros w fsm E; simpl.
  - exists fsm. repeat split; try done; [tauto|].
    intros [?|Hk]; [done | by apply elem_of_nil in Hk].
  - destruct (register_state_step self label w fsm E)
      as (s&w'&fsm1&Hr&E1&Hst&Htr&Hcase&_).
    pose proof (register_state_labelled self label w fsm E) as HL1.
    rewrite Hr in *. simpl in *.
    destruct (IH w' fsm1 E1) as (fsm'&E'&Htr'&Hsub&Hdom&HL').
    exists fsm'. split; [done|]. split; [congruence|].
    assert (states fsm ⊆ states fsm1) as Hsub1.
    { rewrite Hst. destruct Hcase as [Hold|[Hnone _]].
      - by rewrite insert_id.
      - by apply insert_subseteq. }
    split; [by etrans|]. split; [|tauto].
    intros k. rewrite Hdom, Hst, lookup_insert_is_Some, elem_of_cons.
    destruct (decide (label = k)); intuition congruence.
Qed.

(** The invariant holds of a registry as [FiniteStateMachine(...)] builds
    it, and calls on other registries keep it. *)
Lemma init_labelled (tc : TableClass) (w w' : World) (r : loc) :
  FiniteStateMachine.init tc w = (Ok r, w') → states_labelled w' r.
Proof.
  unfold FiniteStateMachine.init. rewrite bind_eq. unfold lift_result.
  destruct (find_fsm_column tc) as [col|e]; [|done].
  unfold FiniteStateMachine.new_machine. intros [= <- <-].
  unfold states_labelled, states_of. simpl. rewrite lookup_insert_eq. simpl.
  apply map_Forall_empty.
Qed.

Lemma states_labelled_le (w w' : World) (r : loc) :
  world_le w w' → states_of w' r = states_of w r →
  states_labelled w r → states_labelled w' r.
Proof.
  intros (_&_&Hsub&_) Heq HL k s. rewrite Heq. intros Hk.
  specialize (HL _ _ Hk). simpl in HL.
  by eapply lookup_weaken.
Qed.

Lemma states_labelled_one (w : World) (self : loc) :
  states_labelled w self → one_state_per_label w self.
Proof.
  intros HL k1 k2 s1 s2 o1 o2 H1 H2 Ho1 Ho2 Hv.
  rewrite (HL _ _ H1) in Ho1. rewrite (HL _ _ H2) in Ho2.
  injection Ho1 as <-. injection Ho2 as <-. simpl in Hv. subst k2. congruence.
Qed.

Lemma register_state_frame (self : loc) (label : pyval) (w : World) :
  let w' := (FiniteStateMachine.register_state self label w).2 in
  transition_objs w' = transition_objs w ∧ class_handle w' = class_handle w ∧
  instances w' = instances w ∧ events w' = events w ∧
  equality_cache w' = equality_cache w ∧
  ∀ r, r ≠ self → machines w' !! r = machines w !! r.
Proof.
  rewrite register_state_eq. cbv zeta.
  destruct (machines w !! self) as [fsm|]; [|done].
  destruct (states fsm !! label); simpl; [done|].
  repeat split. intros r Hne. by rewrite lookup_insert_ne.
Qed.

Lemma register_states_frame (self : loc) (labels : list pyval) (w : World) :
  let w' := register_states self labels w in
  transition_objs w' = transition_objs w ∧ class_handle w' = class_handle w ∧
  instances w' = instances w ∧ events w' = events w ∧
  equality_cache w' = equality_cache w ∧
  ∀ r, r ≠ self → machines w' !! r = machines w !! r.
Proof.
  revert w. induction labels as [|label rest IH]; intros w; simpl; [done|].
  destruct (register_state_frame self label w) as (?&?&?&?&?&Hm).
  destruct (IH (FiniteStateMachine.register_state self label w).2)
    as (?&?&?&?&?&Hm').
  repeat split; try congruence.
  intros r Hne. rewrite Hm' by done. by apply Hm.
Qed.

Lemma register_loop_eq `{Util} (self : loc) (xs : list pyval) (w : World)
    (fsm : FiniteStateMachine) :
  machines w !! self = Some fsm →
  for_each (λ a_state,
              if is_valid_literal_state a_state
              then FiniteStateMachine.register_state self a_state ;; mret tt
              else mret tt) xs w
  = (Ok tt, register_states self (List.filter is_valid_literal_state xs) w).
Proof.
  revert w fsm. induction xs as [|x xs IH]; intros w fsm E; simpl; [done|].
  rewrite bind_eq. destruct (is_valid_literal_state x); simpl.
  - rewrite bind_eq.
    destruct (register_state_step self x w fsm E) as (s&w'&fsm'&Hr&E'&_).
    rewrite Hr. simpl. by eapply IH.
  - by eapply IH.
Qed.

Lemma register_transition_spec `{Util} (self : loc) (meta : FSMMeta) (w : World)
    (fsm : FiniteStateMachine) :
  machines w !! self = Some fsm →
  ∃ w' fsm',
    let t := fresh (dom (transition_objs w)) in
    FiniteStateMachine.register_transition self meta w = (Ok t, w') ∧
    transition_objs w' =
      <[t := {| tr_parent := self; tr_meta := meta |}]> (transition_objs w) ∧
    machines w' !! self = Some fsm' ∧
    transitions fsm' = transitions fsm ++ [t] ∧
    states fsm ⊆ states fsm' ∧
    (∀ k, is_Some (states fsm' !! k) ↔
          is_Some (states fsm !! k) ∨
          (k ∈ sources meta ++ [target meta] ∧ is_valid_literal_state k = true)) ∧
    class_handle w' = class_handle w ∧ instances w' = instances w ∧
    (∀ r, r ≠ self → machines w' !! r = machines w !! r) ∧
    (states_labelled w self → states_labelled w' self).
Proof.
  intros E.
  set (t := fresh (dom (transition_objs w))).
  set (w1 := set_transition_objs
               <[t := {| tr_parent := self; tr_meta := meta |}]> w).
  set (ls := List.filter is_valid_literal_state (sources meta ++ [target meta])).
  assert (machines w1 !! self = Some fsm) as E1 by done.
  destruct (register_states_spec self ls w1 fsm E1) as (fsm2&E2&Htr&Hsub&Hdom&HL).
  destruct (register_states_frame self ls w1) as (Ht&Hc&Hi&_&_&Hm).
  eexists _, (set_transitions (λ l, l ++ [t]) fsm2).
  cbv zeta. fold t.
  split.
  { unfold FiniteStateMachine.register_transition.
    rewrite bind_eq. unfold FiniteStateMachine.new_transition. fold t w1.
    rewrite bind_eq, (register_loop_eq self _ w1 fsm E1). fold ls.
    munfold. simpl. rewrite E2. reflexivity. }
  simpl. rewrite lookup_insert_eq.
  split; [by rewrite Ht|]. split; [done|]. split; [by rewrite Htr|].
  split; [done|]. split.
  { intros k. rewrite Hdom. unfold ls.
    rewrite list_elem_of_In, filter_In, <- list_elem_of_In. tauto. }
  split; [by rewrite Hc|]. split; [by rewrite Hi|]. split.
  { intros r Hne. rewrite lookup_insert_ne by done. by apply Hm. }
  intros HLw. assert (states_labelled w1 self) as HL1 by exact HLw.
  specialize (HL HL1). intros k s. unfold states_of. simpl.
  rewrite lookup_insert_eq. simpl. intros Hk.
  apply HL. unfold states_of. by rewrite E2.
Qed.

(** ** Registry operations (section 4.2) *)

(** C5.  In a registry whose states are labelled by their keys, for any
    calls made before, two calls of [register_state] with one label, one
    after the other, return the same state object, the second leaves the
    states map as the first left it, and the states map never holds two
    state objects with one label. *)
Theorem register_state_idempotent (w0 : World) (self : loc)
    (fsm0 : FiniteStateMachine) (before : list pyval) (label : pyval) :
  machines w0 !! self = Some fsm0 →
  states_labelled w0 self →
  let w := register_states self before w0 in
  ∃ s w1 w2,
    FiniteStateMachine.register_state self label w = (Ok s, w1) ∧
    FiniteStateMachine.register_state self label w1 = (Ok s, w2) ∧
    states_of w1 self !! label = Some s ∧
    states_of w2 self = states_of w1 self ∧
    one_state_per_label w self ∧
    one_state_per_label w1 self ∧
    one_state_per_label w2 self.
Proof.
  intros E0 HL0 w.
  destruct (register_states_spec self before w0 fsm0 E0) as (fsm&E&_&_&_&HL).
  specialize (HL HL0). fold w in E, HL.
  destruct (register_state_step self label w fsm E)
    as (s&w1&fsm1&Hr1&E1&Hst1&_&_&_).
  pose proof (register_state_labelled self label w fsm E HL) as HL1.
  rewrite Hr1 in HL1. simpl in HL1.
  assert (states fsm1 !! label = Some s) as Hs
    by (rewrite Hst1; apply lookup_insert_eq).
  destruct (register_state_step self label w1 fsm1 E1)
    as (s'&w2&fsm2&Hr2&E2&Hst2&_&Hcase&_).
  pose proof (register_state_labelled self label w1 fsm1 E1 HL1) as HL2.
  rewrite Hr2 in HL2. simpl in HL2.
  assert (s' = s) as -> by (destruct Hcase as [?|[? _]]; congruence).
  exists s, w1, w2. unfold states_of. rewrite E1, E2.
  repeat split; try done; try by apply states_labelled_one.
  rewrite Hst2. by apply insert_id.
Qed.

(** C9.  In a registry, [get_state] raises [KeyError] for a label the
    states map does not hold and returns the stored state for a label it
    holds; a label stays unknown through [register_state] calls for other
    labels; and [current_state] of an instance-bound machine is [get_state]
    at the record's current raw value, so it raises [KeyError] when that
    value was never registered. *)
Theorem get_state_lookup (w : World) (self : loc) (fsm : FiniteStateMachine) :
  machines w !! self = Some fsm →
  (∀ label,
     FiniteStateMachine.get_state self label w =
       match states fsm !! label with
       | None => (Raise (KeyError label), w)
       | Some st => (Ok st, w)
       end) ∧
  (∀ label others,
     states fsm !! label = None → label ∉ others →
     FiniteStateMachine.get_state self label (register_states self others w) =
       (Raise (KeyError label), register_states self others w)) ∧
  (∀ record attrs raw,
     instances w !! record = Some attrs →
     attrs !! column_name fsm = Some raw →
     current_state {| cls_fsm := self; instance := record |} w =
       match states fsm !! raw with
       | None => (Raise (KeyError raw), w)
       | Some st => (Ok st, w)
       end).
Proof.
  intros E.
  assert (∀ w' fsm' label, machines w' !! self = Some fsm' →
            FiniteStateMachine.get_state self label w' =
              match states fsm' !! label with
              | None => (Raise (KeyError label), w')
              | Some st => (Ok st, w')
              end) as Hget.
  { intros w' fsm' label E'. unfold FiniteStateMachine.get_state. munfold.
    rewrite E'. by destruct (states fsm' !! label). }
  split; [|split].
  - intros label. by apply Hget.
  - intros label others Hnone Hnot.
    destruct (register_states_spec self others w fsm E) as (fsm'&E'&_&_&Hdom&_).
    rewrite (Hget _ _ _ E').
    destruct (states fsm' !! label) as [st|] eqn:El; [|done].
    exfalso. assert (is_Some (states fsm' !! label)) as Hs by by eexists.
    apply Hdom in Hs as [[? Hs]|?]; [congruence | done].
  - intros record attrs raw Ei Ea.
    unfold current_state, current_raw_value, getattr_instance,
      FiniteStateMachine.get_state.
    munfold. simpl. rewrite E, Ei, Ea. simpl. rewrite E.
    by destruct (states fsm !! raw).
Qed.

Lemma register_transitions_spec `{Util} (self : loc) (metas : list FSMMeta)
    (w : World) (fsm : FiniteStateMachine) :
  machines w !! self = Some fsm →
  ∃ fsm',
    machines (register_transitions self metas w) !! self = Some fsm' ∧
    ∀ k, is_Some (states fsm' !! k) ↔
         is_Some (states fsm !! k) ∨
         ∃ m, m ∈ metas ∧ k ∈ sources m ++ [target m] ∧
              is_valid_literal_state k = true.
Proof.
  revert w fsm. induction metas as [|meta rest IH]; intros w fsm E; simpl.
  - exists fsm. split; [done|]. intros k. split; [tauto|].
    intros [?|(m&Hm&_)]; [done | by apply elem_of_nil in Hm].
  - destruct (register_transition_spec self meta w fsm E)
      as (w'&fsm1&Hr&_&E1&_&_&Hdom1&_).
    cbv zeta in Hr. rewrite Hr. simpl.
    destruct (IH w' fsm1 E1) as (fsm'&E'&Hdom).
    exists fsm'. split; [done|]. intros k. rewrite Hdom, Hdom1. split.
    + intros [[?|?]|(m&Hm&?)]; [tauto | right; exists meta | right; exists m];
        (split; [rewrite elem_of_cons; auto | done]).
    + intros [?|(m&Hm&?&?)]; [tauto|].
      apply elem_of_cons in Hm as [->|Hm]; [tauto|].
      right. exists m. tauto.
Qed.

(** C6.  When [util.is_valid_literal_state] rejects the wildcard marker,
    in a registry that holds no wildcard state, after any calls made before,
    a call of [register_transition] returns, and afterwards the states map
    holds exactly the labels it held at the start and the literal labels
    among the sources and targets of the declarations registered so far; in
    particular every literal source and the literal target of this
    declaration has an entry, and the wildcard marker has none. *)
Theorem register_transition_registers_literals `{Util} (w : World) (self : loc)
    (fsm : FiniteStateMachine) (before : list FSMMeta) (meta : FSMMeta) :
  is_valid_literal_state WILDCARD = false →
  machines w !! self = Some fsm →
  states fsm !! WILDCARD = None →
  ∃ t w',
    FiniteStateMachine.register_transition self meta
      (register_transitions self before w) = (Ok t, w') ∧
    (∀ v, v ∈ sources meta ++ [target meta] →
          is_valid_literal_state v = true → is_Some (states_of w' self !! v)) ∧
    (∀ k, is_Some (states_of w' self !! k) ↔
          is_Some (states fsm !! k) ∨
          ∃ m, m ∈ before ++ [meta] ∧ k ∈ sources m ++ [target m] ∧
               is_valid_literal_state k = true) ∧
    states_of w' self !! WILDCARD = None.
Proof.
  intros Hwild E Hnone.
  destruct (register_transitions_spec self before w fsm E) as (fsm0&E0&Hdom0).
  destruct (register_transition_spec self meta _ fsm0 E0)
    as (w'&fsm'&Hr&_&E'&_&_&Hdom&_).
  cbv zeta in Hr. eexists _, w'. split; [exact Hr|].
  unfold states_of. rewrite E'.
  assert (∀ k, is_Some (states fsm' !! k) ↔
               is_Some (states fsm !! k) ∨
               ∃ m, m ∈ before ++ [meta] ∧ k ∈ sources m ++ [target m] ∧
                    is_valid_literal_state k = true) as Hall.
  { intros k. rewrite Hdom, Hdom0. split.
    - intros [[?|(m&?&?&?)]|[? ?]]; [tauto | right; exists m | right; exists meta];
        (split; [rewrite elem_of_app, list_elem_of_singleton; auto | done]).
    - intros [?|(m&Hm&?&?)]; [tauto|].
      apply elem_of_app in Hm as [Hm|Hm].
      + left. right. exists m. tauto.
      + apply list_elem_of_singleton in Hm as ->. tauto. }
  split; [|split; [exact Hall|]].
  - intros v Hv Hlit. apply Hdom. tauto.
  - destruct (states fsm' !! WILDCARD) as [s|] eqn:Es; [|done].
    exfalso. assert (is_Some (states fsm' !! WILDCARD)) as Hs by by eexists.
    apply Hall in Hs as [[? Hs]|(m&_&_&Hlit)]; congruence.
Qed.

(** ** Attribute access (sections 2 and 4.5) *)

Lemma dom_machines_same (w w' : World) (r : loc) :
  is_Some (machines w !! r) → is_Some (machines w' !! r) →
  (∀ r', r' ≠ r → machines w' !! r' = machines w !! r') →
  dom (machines w') = dom (machines w).
Proof.
  intros H1 H2 Hm. apply set_eq. intros x. rewrite !elem_of_dom.
  destruct (decide (x = r)) as [->|Hne]; [tauto|]. by rewrite Hm.
Qed.

Lemma get_fail `{Util} (meta : FSMMeta) (i : option loc) (owner : TableClass)
    (w : World) (e : exn) :
  lookup_handle w owner = None → find_fsm_column owner = Raise e →
  FsmTransition.get meta i owner w = (Raise e, w).
Proof.
  intros Hc Hf. unfold FsmTransition.get, FsmTransition.machine_root.
  rewrite bind_eq, bind_eq. unfold get_world at 1. rewrite Hc.
  by rewrite bind_eq, (init_raise _ _ _ Hf).
Qed.

Lemma get_again `{Util} (meta : FSMMeta) (i : option loc) (owner : TableClass)
    (w : World) (r : loc) (fsm : FiniteStateMachine) :
  lookup_handle w owner = Some r → machines w !! r = Some fsm →
  ∃ v w' fsm',
    let t := fresh (dom (transition_objs w)) in
    FsmTransition.get meta i owner w = (Ok v, w') ∧
    view_machine v = r ∧ view_transition v = t ∧
    class_handle w' = class_handle w ∧
    dom (machines w') = dom (machines w) ∧
    machines w' !! r = Some fsm' ∧
    transitions fsm' = transitions fsm ++ [t] ∧
    transition_objs w' =
      <[t := {| tr_parent := r; tr_meta := meta |}]> (transition_objs w).
Proof.
  intros Hc E.
  destruct (register_transition_spec r meta w fsm E)
    as (w'&fsm'&Hr&Ht&E'&Htr&_&_&Hc'&_&Hm&_).
  cbv zeta in *.
  assert (FsmTransition.machine_root owner w = (Ok r, w)) as Hroot.
  { unfold FsmTransition.machine_root. rewrite bind_eq.
    unfold get_world. by rewrite Hc. }
  exists (match i with
          | None => ClassBound (ClassBoundFsmTransition.init r
                                  (fresh (dom (transition_objs w))) owner)
          | Some l => InstanceBound (InstanceBoundFsmTransition.init r
                                       (fresh (dom (transition_objs w))) owner l)
          end), w', fsm'.
  split.
  { unfold FsmTransition.get. rewrite bind_eq, Hroot, bind_eq, Hr.
    destruct i; reflexivity. }
  split; [by destruct i|]. split; [by destruct i|].
  repeat split; try done.
  by apply (dom_machines_same w w' r).
Qed.

Lemma get_first `{Util} (meta : FSMMeta) (i : option loc) (owner : TableClass)
    (w : World) (col : Column) :
  lookup_handle w owner = None → find_fsm_column owner = Ok col →
  ∃ v w' fsm',
    let r := fresh (dom (machines w)) in
    let t := fresh (dom (transition_objs w)) in
    FsmTransition.get meta i owner w = (Ok v, w') ∧
    view_machine v = r ∧ view_transition v = t ∧
    class_handle w' = <[cls_id owner := r]> (class_handle w) ∧
    dom (machines w') = {[r]} ∪ dom (machines w) ∧
    machines w' !! r = Some fsm' ∧
    transitions fsm' = [t] ∧
    transition_objs w' =
      <[t := {| tr_parent := r; tr_meta := meta |}]> (transition_objs w).
Proof.
  intros Hc Hf.
  set (r := fresh (dom (machines w))).
  set (fsm := {| table_class := owner; fsm_column := col; column_name := name col;
                 states := ∅; transitions := [] |}).
  set (w1 := set_class_handle <[cls_id owner := r]>
               (set_machines <[r := fsm]> w)).
  assert (FsmTransition.machine_root owner w = (Ok r, w1)) as Hroot.
  { unfold FsmTransition.machine_root. rewrite bind_eq.
    unfold get_world at 1. rewrite Hc, bind_eq, (init_ok _ _ _ Hf).
    reflexivity. }
  assert (machines w1 !! r = Some fsm) as E1 by apply lookup_insert_eq.
  destruct (register_transition_spec r meta w1 fsm E1)
    as (w'&fsm'&Hr&Ht&E'&Htr&_&_&Hc'&_&Hm&_).
  cbv zeta in *.
  exists (match i with
          | None => ClassBound (ClassBoundFsmTransition.init r
                                  (fresh (dom (transition_objs w1))) owner)
          | Some l => InstanceBound (InstanceBoundFsmTransition.init r
                                       (fresh (dom (transition_objs w1))) owner l)
          end), w', fsm'.
  split.
  { unfold FsmTransition.get. rewrite bind_eq, Hroot, bind_eq, Hr.
    destruct i; reflexivity. }
  split; [by destruct i|]. split; [by destruct i|].
  repeat split; try done.
  rewrite (dom_machines_same w1 w' r); [|by eexists..|done].
  simpl. apply dom_insert_L.
Qed.

(** C7 (as amended).  For a record type that declares exactly one FSM state
    column and on which no registry resolves yet, neither its own nor one of
    a class of its [__mro__], the first access of an annotated attribute
    builds exactly one registry and stores it on the type; after any further
    accesses, on this or other types, an access on the type returns a view
    over that same registry, leaves it stored on the type and builds no
    registry. *)
Theorem registry_built_once `{Util} (owner : TableClass) (col : Column)
    (w : World) (meta : FSMMeta) (i : option loc) (later : list Access)
    (meta' : FSMMeta) (i' : option loc) :
  find_fsm_column owner = Ok col →
  lookup_handle w owner = None →
  ∃ v w1 v' w3,
    let r := view_machine v in
    let w2 := accesses later w1 in
    FsmTransition.get meta i owner w = (Ok v, w1) ∧
    machines w !! r = None ∧
    dom (machines w1) = {[r]} ∪ dom (machines w) ∧
    class_handle w1 !! cls_id owner = Some r ∧
    lookup_handle w1 owner = Some r ∧
    FsmTransition.get meta' i' owner w2 = (Ok v', w3) ∧
    view_machine v' = r ∧
    class_handle w2 !! cls_id owner = Some r ∧
    lookup_handle w2 owner = Some r ∧
    class_handle w3 !! cls_id owner = Some r ∧
    lookup_handle w3 owner = Some r ∧
    dom (machines w3) = dom (machines w2).
Proof.
  intros Hf Hc.
  destruct (get_first meta i owner w col Hc Hf)
    as (v&w1&fsm1&Hg&Hv&_&Hc1&Hd1&E1&_).
  cbv zeta in *.
  assert (class_handle w1 !! cls_id owner = Some (view_machine v)) as Hh1
    by (rewrite Hc1, Hv; apply lookup_insert_eq).
  destruct (accesses_le later w1) as (Hm&Hsub&_).
  rewrite <- Hv in E1.
  destruct (Hm _ _ E1) as (fsm2&E2&_).
  pose proof (lookup_weaken _ _ _ _ Hh1 Hsub) as Hh2.
  destruct (get_again meta' i' owner _ _ fsm2 (lookup_handle_own _ _ _ Hh2) E2)
    as (v'&w3&fsm3&Hg'&Hv'&_&Hc3&Hd3&_).
  assert (class_handle w3 !! cls_id owner = Some (view_machine v)) as Hh3
    by (by rewrite Hc3).
  exists v, w1, v', w3. cbv zeta.
  repeat split; try done; try by apply lookup_handle_own.
  - rewrite Hv. apply fresh_machine.
  - by rewrite Hv.
Qed.

Lemma entries_for_insert (w w' : World) (r : loc) (meta : FSMMeta) (l : list loc)
    (t : loc) (o : FSMStateTransition) :
  transition_objs w !! t = None →
  transition_objs w' = <[t := o]> (transition_objs w) →
  entries_for w r meta l → entries_for w' r meta l.
Proof.
  intros Hfresh Hw' He. unfold entries_for in *.
  eapply Forall_impl; [exact He|]. intros t' Ht'. simpl in *.
  rewrite Hw', lookup_insert_ne; [done|]. intros ->. congruence.
Qed.

Lemma accesses_of_declaration `{Util} (owner : TableClass)
    (meta : FSMMeta) (insts : list (option loc)) (w : World) (r : loc)
    (fsm : FiniteStateMachine) (old new : list loc) :
  lookup_handle w owner = Some r → machines w !! r = Some fsm →
  transitions fsm = old ++ new →
  entries_for w r meta new →
  let w' := accesses (map (λ i, {| acc_meta := meta; acc_instance := i;
                                   acc_owner := owner |}) insts) w in
  ∃ fsm' new',
    class_handle w' = class_handle w ∧ machines w' !! r = Some fsm' ∧
    transitions fsm' = old ++ new' ∧
    entries_for w' r meta new' ∧
    length new' = length new + length insts.
Proof.
  revert w fsm new. induction insts as [|i rest IH]; intros w fsm new Hc E Hs He;
    simpl.
  - exists fsm, new. repeat split; try done; lia.
  - destruct (get_again meta i owner w r fsm Hc E)
      as (v&w1&fsm1&Hg&_&_&Hc1&_&E1&Htr&Ht).
    cbv zeta in *. rewrite Hg. simpl.
    set (t := fresh (dom (transition_objs w))) in *.
    assert (entries_for w1 r meta (new ++ [t])) as He1.
    { apply Forall_app. split.
      - eapply entries_for_insert; [apply fresh_transition | exact Ht | done].
      - apply Forall_singleton. rewrite Ht. apply lookup_insert_eq. }
    assert (transitions fsm1 = old ++ (new ++ [t])) as Hs1
      by (by rewrite Htr, Hs, <- app_assoc).
    assert (lookup_handle w1 owner = Some r) as Hc1'
      by (by rewrite (lookup_handle_ext _ _ _ Hc1)).
    destruct (IH w1 fsm1 (new ++ [t]) Hc1' E1 Hs1 He1)
      as (fsm'&new'&Hc'&E'&Hs'&He'&Hlen).
    exists fsm', new'. repeat split; try done; [congruence|].
    rewrite Hlen, length_app. simpl. lia.
Qed.

(** C10 (as amended).  On a record type that declares exactly one FSM
    state column, every access of an annotated attribute returns, makes one
    new transition object for the declaration and appends it to the
    transition list of the registry the type resolves to; [n] accesses of
    one declaration append [n] such objects to that list, and when no
    registry resolved at the start the list then holds exactly these [n]
    entries, in a registry stored on the type. *)
Theorem every_access_appends `{Util} (owner : TableClass) (col : Column)
    (meta : FSMMeta) :
  find_fsm_column owner = Ok col →
  (∀ w i, handle_ok w owner →
     ∃ v w2,
       let r := view_machine v in
       let t := view_transition v in
       FsmTransition.get meta i owner w = (Ok v, w2) ∧
       lookup_handle w2 owner = Some r ∧
       transition_objs w !! t = None ∧
       transition_objs w2 !! t = Some {| tr_parent := r; tr_meta := meta |} ∧
       transitions_of w2 r = transitions_of w r ++ [t]) ∧
  (∀ w i insts, lookup_handle w owner = None →
     let w' := accesses (map (λ i, {| acc_meta := meta; acc_instance := i;
                                      acc_owner := owner |}) (i :: insts)) w in
     ∃ r, class_handle w' !! cls_id owner = Some r ∧
          lookup_handle w' owner = Some r ∧
          length (transitions_of w' r) = S (length insts) ∧
          entries_for w' r meta (transitions_of w' r)) ∧
  (∀ w i insts, handle_ok w owner →
     let w' := accesses (map (λ i, {| acc_meta := meta; acc_instance := i;
                                      acc_owner := owner |}) (i :: insts)) w in
     ∃ r new,
       lookup_handle w' owner = Some r ∧
       transitions_of w' r = transitions_of w r ++ new ∧
       length new = S (length insts) ∧
       entries_for w' r meta new).
Proof.
  intros Hf.
  assert (∀ w i insts, handle_ok w owner →
     let w' := accesses (map (λ i, {| acc_meta := meta; acc_instance := i;
                                      acc_owner := owner |}) (i :: insts)) w in
     ∃ r new,
       lookup_handle w' owner = Some r ∧
       (lookup_handle w owner = None → class_handle w' !! cls_id owner = Some r) ∧
       transitions_of w' r = transitions_of w r ++ new ∧
       length new = S (length insts) ∧
       entries_for w' r meta new) as Hgrow.
  { intros w i insts Hok. simpl. unfold handle_ok in Hok.
    destruct (lookup_handle w owner) as [r|] eqn:Hc.
    - destruct Hok as [fsm E].
      destruct (get_again meta i owner w r fsm Hc E)
        as (v&w1&fsm1&Hg&_&_&Hc1&_&E1&Htr&Ht).
      cbv zeta in *. rewrite Hg. simpl.
      set (t := fresh (dom (transition_objs w))) in *.
      assert (entries_for w1 r meta [t]) as He1
        by (apply Forall_singleton; rewrite Ht; apply lookup_insert_eq).
      assert (lookup_handle w1 owner = Some r) as Hc1'
        by (by rewrite (lookup_handle_ext _ _ _ Hc1)).
      destruct (accesses_of_declaration owner meta insts w1 r fsm1
                  (transitions fsm) [t] Hc1' E1 Htr He1)
        as (fsm'&new'&Hc'&E'&Hs'&He'&Hlen).
      exists r, new'. unfold transitions_of. rewrite E, E'.
      split; [by rewrite (lookup_handle_ext _ _ _ Hc')|].
      split; [done|]. split; [done|]. split; [|done].
      rewrite Hlen. simpl. lia.
    - destruct (get_first meta i owner w col Hc Hf)
        as (v&w1&fsm1&Hg&_&_&Hc1&_&E1&Htr&Ht).
      cbv zeta in *. rewrite Hg. simpl.
      set (r := fresh (dom (machines w))) in *.
      set (t := fresh (dom (transition_objs w))) in *.
      assert (class_handle w1 !! cls_id owner = Some r) as Hh1
        by (rewrite Hc1; apply lookup_insert_eq).
      assert (entries_for w1 r meta [t]) as He1
        by (apply Forall_singleton; rewrite Ht; apply lookup_insert_eq).
      destruct (accesses_of_declaration owner meta insts w1 r fsm1
                  [] [t] (lookup_handle_own _ _ _ Hh1) E1 Htr He1)
        as (fsm'&new'&Hc'&E'&Hs'&He'&Hlen).
      assert (machines w !! r = None) as Hfr by apply fresh_machine.
      exists r, new'. unfold transitions_of.
      rewrite E', Hfr.
      split; [apply lookup_handle_own; by rewrite Hc'|].
      split; [intros _; by rewrite Hc'|].
      split; [done|]. split; [|done].
      rewrite Hlen. simpl. lia. }
  split; [|split].
  - intros w i Hok. unfold handle_ok in Hok.
    destruct (lookup_handle w owner) as [r|] eqn:Hc.
    + destruct Hok as [fsm E].
      destruct (get_again meta i owner w r fsm Hc E)
        as (v&w2&fsm2&Hg&Hv&Hvt&Hc2&_&E2&Htr&Ht).
      cbv zeta in *. exists v, w2. cbv zeta.
      unfold transitions_of.
      rewrite Hv, Hvt, E, E2, Htr, Ht, (lookup_handle_ext _ _ _ Hc2).
      repeat split; try done.
      * apply fresh_transition.
      * apply lookup_insert_eq.
    + destruct (get_first meta i owner w col Hc Hf)
        as (v&w2&fsm2&Hg&Hv&Hvt&Hc2&_&E2&Htr&Ht).
      cbv zeta in *. exists v, w2. cbv zeta.
      unfold transitions_of. rewrite Hv, Hvt, E2, fresh_machine, Htr, Ht.
      repeat split; try done.
      * apply lookup_handle_own. rewrite Hc2. apply lookup_insert_eq.
      * apply fresh_transition.
      * apply lookup_insert_eq.
  - intros w i insts Hc.
    assert (handle_ok w owner) as Hok by (unfold handle_ok; by rewrite Hc).
    destruct (Hgrow w i insts Hok) as (r&new&Hl&Hown&Htr&Hlen&He).
    exists r. split; [by apply Hown|]. split; [done|].
    assert (transitions_of w r = []) as Hnil.
    { unfold transitions_of.
      destruct (machines w !! r) as [fsm|] eqn:E; [|done]. exfalso.
      destruct (get_first meta i owner w col Hc Hf)
        as (v&w1&fsm1&Hg&_&_&Hc1&_&_).
      cbv zeta in *.
      assert (class_handle w1 !! cls_id owner = Some (fresh (dom (machines w))))
        as Hh1 by (rewrite Hc1; apply lookup_insert_eq).
      pose proof (Hown Hc) as Hown'. simpl in Hown'. rewrite Hg in Hown'.
      simpl in Hown'.
      destruct (accesses_le
                  (map (λ i, {| acc_meta := meta; acc_instance := i;
                                acc_owner := owner |}) insts) w1)
        as (_&Hsub&_).
      pose proof (lookup_weaken _ _ _ _ Hh1 Hsub) as Hh'.
      assert (r = fresh (dom (machines w))) as -> by congruence.
      by rewrite fresh_machine in E. }
    rewrite Htr, Hnil. simpl. split; [done|]. exact He.
  - intros w i insts Hok.
    destruct (Hgrow w i insts Hok) as (r&new&Hl&_&Htr&Hlen&He).
    by exists r, new.
Qed.

(** ** The bound views (sections 4.3 and 4.4) *)

(** What [__get__] hands out: a view whose slots are filled and whose
    [__dict__] is empty. *)
Lemma get_view `{Util} (meta : FSMMeta) (i : option loc) (owner : TableClass)
    (w w' : World) (v : BoundTransition) :
  FsmTransition.get meta i owner w = (Ok v, w') →
  match v with
  | ClassBound b => i = None ∧ cb_dict b = ∅
  | InstanceBound b => i = Some (ib_sa_fsm_self b) ∧ ib_dict b = ∅
  end.
Proof.
  unfold FsmTransition.get. rewrite bind_eq.
  destruct (FsmTransition.machine_root owner w) as [[r|e] w1]; [|done].
  rewrite bind_eq.
  destruct (FiniteStateMachine.register_transition r meta w1) as [[t|e] w2];
    [|done].
  destruct i; intros [= <- <-]; done.
Qed.

(** [set] once its two names are bound: the checks run in order and the
    first that fails ends the call. *)
Lemma set_bound_invalid_source (b : InstanceBoundFsmTransition) (bm : BoundMeta)
    (fn_name : string) (a : CallArgs) (w w1 w2 : World) (st : loc) :
  transition_possible bm w = (Ok false, w1) →
  bm_current_state bm w1 = (Ok st, w2) →
  InstanceBoundFsmTransition.set (with_bound_attrs b bm fn_name) a w =
    (Raise (InvalidSourceStateError
              "Unable to switch from {} using method {}" st fn_name), w2).
Proof.
  intros Hp Hs. unfold InstanceBoundFsmTransition.set, getattr. simpl.
  rewrite lookup_insert_eq, lookup_insert_ne, lookup_insert_eq by done.
  munfold. simpl. rewrite Hp. simpl. by rewrite Hs.
Qed.

Lemma set_bound_precondition (b : InstanceBoundFsmTransition) (bm : BoundMeta)
    (fn_name : string) (a : CallArgs) (w w1 w2 : World) :
  transition_possible bm w = (Ok true, w1) →
  conditions_met bm a w1 = (Ok false, w2) →
  InstanceBoundFsmTransition.set (with_bound_attrs b bm fn_name) a w =
    (Raise (PreconditionError "Preconditions are not satisfied."), w2).
Proof.
  intros Hp Hc. unfold InstanceBoundFsmTransition.set, getattr. simpl.
  rewrite lookup_insert_eq, lookup_insert_ne, lookup_insert_eq by done.
  munfold. simpl. rewrite Hp. simpl. by rewrite Hc.
Qed.

Lemma set_bound_dispatch (b : InstanceBoundFsmTransition) (bm : BoundMeta)
    (fn_name : string) (a : CallArgs) (w w1 w2 : World) :
  transition_possible bm w = (Ok true, w1) →
  conditions_met bm a w1 = (Ok true, w2) →
  InstanceBoundFsmTransition.set (with_bound_attrs b bm fn_name) a w =
    to_next_state bm a w2.
Proof.
  intros Hp Hc. unfold InstanceBoundFsmTransition.set, getattr. simpl.
  rewrite lookup_insert_eq, lookup_insert_ne, lookup_insert_eq by done.
  munfold. simpl. rewrite Hp. simpl. by rewrite Hc.
Qed.

Lemma can_proceed_bound (b : InstanceBoundFsmTransition) (bm : BoundMeta)
    (fn_name : string) (a : CallArgs) (w w1 : World) (possible : bool) :
  transition_possible bm w = (Ok possible, w1) →
  InstanceBoundFsmTransition.can_proceed (with_bound_attrs b bm fn_name) a w =
    if possible then conditions_met bm a w1 else (Ok false, w1).
Proof.
  intros Hp. unfold InstanceBoundFsmTransition.can_proceed, getattr. simpl.
  rewrite lookup_insert_eq. munfold. simpl. rewrite Hp. by destruct possible.
Qed.

Lemma call_bound (b : ClassBoundFsmTransition) (r : loc) (meta : FSMMeta)
    (w : World) (fsm : FiniteStateMachine) :
  machines w !! r = Some fsm →
  ClassBoundFsmTransition.call (with_handle_attrs b r meta) w =
    get_value (fsm_column fsm, target meta) w.
Proof.
  intros E. unfold ClassBoundFsmTransition.call, getattr. simpl.
  rewrite lookup_insert_eq, lookup_insert_ne, lookup_insert_eq by done.
  munfold. simpl. rewrite E. simpl.
  by destruct (get_value (fsm_column fsm, target meta) w) as [[p|e] w'].
Qed.

(** C1.  On the view an instance access returns, [set] raises
    [AttributeError] at its first line, in whatever store and with whatever
    arguments it is called: the name [_sa_fsm_bound_meta] it reads is never
    bound.  No check runs, no handler is invoked and the store is left
    untouched. *)
Theorem set_on_accessed_view `{Util} (meta : FSMMeta) (i : loc)
    (owner : TableClass) (w w' : World) (v : BoundTransition) :
  FsmTransition.get meta (Some i) owner w = (Ok v, w') →
  ∃ b, v = InstanceBound b ∧
       ∀ a w'', InstanceBoundFsmTransition.set b a w'' =
                  (Raise (AttributeError "_sa_fsm_bound_meta"), w'').
Proof.
  intros Hg. apply get_view in Hg. destruct v as [b|b].
  - by destruct Hg.
  - destruct Hg as [_ Hd]. exists b. split; [done|]. intros a w''.
    unfold InstanceBoundFsmTransition.set, getattr. by rewrite Hd.
Qed.

(** C2.  On the view an instance access returns, [can_proceed] raises
    [AttributeError] at its first line, for the same reason, and leaves the
    store untouched. *)
Theorem can_proceed_on_accessed_view `{Util} (meta : FSMMeta) (i : loc)
    (owner : TableClass) (w w' : World) (v : BoundTransition) :
  FsmTransition.get meta (Some i) owner w = (Ok v, w') →
  ∃ b, v = InstanceBound b ∧
       ∀ a w'', InstanceBoundFsmTransition.can_proceed b a w'' =
                  (Raise (AttributeError "_sa_fsm_bound_meta"), w'').
Proof.
  intros Hg. apply get_view in Hg. destruct v as [b|b].
  - by destruct Hg.
  - destruct Hg as [_ Hd]. exists b. split; [done|]. intros a w''.
    unfold InstanceBoundFsmTransition.can_proceed, getattr. by rewrite Hd.
Qed.

(** C3.  On the view a class access returns, [__call__] raises
    [AttributeError] at its first line: the name [_sa_fsm_sqla_handle] it
    reads is never bound, so the predicate cache is not reached. *)
Theorem call_on_accessed_view `{Util} (meta : FSMMeta) (owner : TableClass)
    (w w' : World) (v : BoundTransition) :
  FsmTransition.get meta None owner w = (Ok v, w') →
  ∃ b, v = ClassBound b ∧
       ∀ w'', ClassBoundFsmTransition.call b w'' =
                (Raise (AttributeError "_sa_fsm_sqla_handle"), w'').
Proof.
  intros Hg. apply get_view in Hg. destruct v as [b|b].
  - destruct Hg as [_ Hd]. exists b. split; [done|]. intros w''.
    unfold ClassBoundFsmTransition.call, getattr. by rewrite Hd.
  - by destruct Hg.
Qed.

(** C8.  On the view a class access returns, [is_] with a boolean raises
    [AttributeError], since it goes through [__call__]; with a value that
    is not a boolean it records one warning and returns [False]. *)
Theorem is_on_accessed_view `{Util} (meta : FSMMeta) (owner : TableClass)
    (w w' : World) (v : BoundTransition) :
  FsmTransition.get meta None owner w = (Ok v, w') →
  ∃ b, v = ClassBound b ∧
       (∀ flag w'', ClassBoundFsmTransition.is_ b (PBool flag) w'' =
                      (Raise (AttributeError "_sa_fsm_sqla_handle"), w'')) ∧
       (∀ value w'', isinstance_bool value = false →
          ClassBoundFsmTransition.is_ b value w'' =
            (Ok (inr (PBool false)),
             set_events
               (λ l, l ++ [EWarn "Unexpected is_ argument: {!r}" value]) w'')).
Proof.
  intros Hg. apply get_view in Hg. destruct v as [b|b].
  - destruct Hg as [_ Hd]. exists b. split; [done|]. split.
    + intros flag w''.
      unfold ClassBoundFsmTransition.is_, ClassBoundFsmTransition.call, getattr.
      by rewrite Hd.
    + intros value w'' Hb. by destruct value.
  - by destruct Hg.
Qed.

(** ** What an access does and does not do *)

Lemma machine_root_stored (owner : TableClass) (w : World) (r : loc) :
  lookup_handle w owner = Some r →
  FsmTransition.machine_root owner w = (Ok r, w).
Proof.
  intros Hc. unfold FsmTransition.machine_root. rewrite bind_eq.
  unfold get_world. by rewrite Hc.
Qed.

Lemma machine_root_built (owner : TableClass) (w : World) (col : Column) :
  lookup_handle w owner = None → find_fsm_column owner = Ok col →
  FsmTransition.machine_root owner w =
    (Ok (fresh (dom (machines w))),
     set_class_handle <[cls_id owner := fresh (dom (machines w))]>
       (set_machines
          <[fresh (dom (machines w)) :=
              {| table_class := owner; fsm_column := col; column_name := name col;
                 states := ∅; transitions := [] |}]> w)).
Proof.
  intros Hc Hf. unfold FsmTransition.machine_root. rewrite bind_eq.
  unfold get_world at 1. rewrite Hc, bind_eq, (init_ok _ _ _ Hf). reflexivity.
Qed.

(** An access that returns went through [machine_root] and
    [register_transition], and its view carries their results. *)
Lemma get_inv `{Util} (meta : FSMMeta) (i : option loc) (owner : TableClass)
    (w w' : World) (v : BoundTransition) :
  FsmTransition.get meta i owner w = (Ok v, w') →
  ∃ w0,
    FsmTransition.machine_root owner w = (Ok (view_machine v), w0) ∧
    FiniteStateMachine.register_transition (view_machine v) meta w0
      = (Ok (view_transition v), w').
Proof.
  unfold FsmTransition.get. rewrite bind_eq.
  destruct (FsmTransition.machine_root owner w) as [[r|e] w0]; [|done].
  rewrite bind_eq.
  destruct (FiniteStateMachine.register_transition r meta w0) as [[t|e] w2] eqn:Hr;
    [|done].
  destruct i; intros [= <- <-]; exists w0; done.
Qed.

Lemma get_unfold `{Util} (meta : FSMMeta) (i : option loc) (owner : TableClass)
    (w : World) :
  FsmTransition.get meta i owner w =
    match FsmTransition.machine_root owner w with
    | (Ok r, w0) =>
        match FiniteStateMachine.register_transition r meta w0 with
        | (Ok t, w') =>
            (Ok (match i with
                 | None => ClassBound (ClassBoundFsmTransition.init r t owner)
                 | Some l =>
                     InstanceBound (InstanceBoundFsmTransition.init r t owner l)
                 end), w')
        | (Raise e, w') => (Raise e, w')
        end
    | (Raise e, w0) => (Raise e, w0)
    end.
Proof.
  unfold FsmTransition.get. rewrite bind_eq.
  destruct (FsmTransition.machine_root owner w) as [[r|e] w0]; [|done].
  rewrite bind_eq.
  destruct (FiniteStateMachine.register_transition r meta w0) as [[t|e] w2];
    [|done].
  by destruct i.
Qed.

Lemma machine_root_frame (owner : TableClass) (w w0 : World) (r : loc) :
  FsmTransition.machine_root owner w = (Ok r, w0) →
  transition_objs w0 = transition_objs w ∧ state_objs w0 = state_objs w ∧
  instances w0 = instances w ∧ events w0 = events w ∧
  equality_cache w0 = equality_cache w.
Proof.
  unfold FsmTransition.machine_root. rewrite bind_eq. unfold get_world at 1.
  destruct (lookup_handle w owner) as [r'|].
  - by intros [= <- <-].
  - rewrite bind_eq. unfold FiniteStateMachine.init. rewrite bind_eq.
    unfold lift_result. destruct (find_fsm_column owner) as [col|e]; [|done].
    unfold FiniteStateMachine.new_machine. by intros [= <- <-].
Qed.

(** [register_transition] returns only on a registry of the store. *)
Lemma register_transition_ok_machine `{Util} (self : loc) (meta : FSMMeta)
    (w w' : World) (t : loc) :
  FiniteStateMachine.register_transition self meta w = (Ok t, w') →
  is_Some (machines w !! self).
Proof.
  intros Hr. destruct (machines w !! self) as [fsm|] eqn:E; [by eexists|].
  exfalso. revert Hr. unfold FiniteStateMachine.register_transition.
  rewrite bind_eq. unfold FiniteStateMachine.new_transition.
  rewrite bind_eq.
  set (w1 := set_transition_objs _ w).
  assert (∀ xs w2, machines w2 !! self = None →
            ∃ r, for_each
                   (λ a_state,
                      if is_valid_literal_state a_state
                      then FiniteStateMachine.register_state self a_state ;; mret tt
                      else mret tt) xs w2 = r ∧
                 match r.1 with Ok _ => machines r.2 !! self = None | _ => True end)
    as Hloop.
  { induction xs as [|x xs IH]; intros w2 E2; simpl.
    - eexists. split; [reflexivity|]. done.
    - rewrite bind_eq. destruct (is_valid_literal_state x); simpl.
      + rewrite bind_eq, register_state_eq. cbv zeta. rewrite E2. simpl.
        eexists. split; [reflexivity|]. done.
      + apply IH. done. }
  destruct (Hloop (sources meta ++ [target meta]) w1 E) as (r&->&Hm).
  destruct r as [[[]|e] w2]; simpl in *; [|done].
  munfold. simpl. by rewrite Hm.
Qed.

(** The transition object a call of [register_transition] returns is the
    one it made first. *)
Lemma register_transition_ok `{Util} (self : loc) (meta : FSMMeta)
    (w w' : World) (t : loc) :
  FiniteStateMachine.register_transition self meta w = (Ok t, w') →
  t = fresh (dom (transition_objs w)) ∧
  transition_objs w' !! t = Some {| tr_parent := self; tr_meta := meta |}.
Proof.
  intros Hr.
  destruct (register_transition_ok_machine _ _ _ _ _ Hr) as [fsm E].
  destruct (register_transition_spec self meta w fsm E)
    as (w2&fsm2&Hr2&Ht&_).
  cbv zeta in *. rewrite Hr in Hr2. injection Hr2 as -> ->.
  split; [done|]. rewrite Ht. apply lookup_insert_eq.
Qed.

(** X1.  Whatever attributes are accessed, on whatever types and whether the
    accesses return or raise, no mapped record is written, no class loses or
    changes its registry, no state or transition object is altered, and
    every registry keeps its table, column and column name, keeps each label
    on the state object it had, and keeps its transition list as a prefix of
    the new one. *)
Theorem accesses_only_extend `{Util} (l : list Access) (w : World) :
  instances (accesses l w) = instances w ∧
  (∀ c r, class_handle w !! c = Some r → class_handle (accesses l w) !! c = Some r) ∧
  (∀ s o, state_objs w !! s = Some o → state_objs (accesses l w) !! s = Some o) ∧
  (∀ t o, transition_objs w !! t = Some o →
          transition_objs (accesses l w) !! t = Some o) ∧
  (∀ r fsm, machines w !! r = Some fsm →
     ∃ fsm', machines (accesses l w) !! r = Some fsm' ∧
             table_class fsm' = table_class fsm ∧
             fsm_column fsm' = fsm_column fsm ∧
             column_name fsm' = column_name fsm ∧
             (∀ k s, states fsm !! k = Some s → states fsm' !! k = Some s) ∧
             transitions fsm `prefix_of` transitions fsm').
Proof.
  destruct (accesses_le l w) as (Hm&Hc&Hs&Ht&Hi).
  split; [done|]. split; [|split; [|split]].
  - intros c r Hr. by eapply lookup_weaken.
  - intros s o Ho. by eapply lookup_weaken.
  - intros t o Ho. by eapply lookup_weaken.
  - intros r fsm E. destruct (Hm _ _ E) as (fsm'&E'&(?&?&?&Hsub&?)).
    exists fsm'. repeat split; try done.
    intros k s Hk. by eapply lookup_weaken.
Qed.

(** X2.  In a registry, [get_state] right after [register_state] with the
    same label returns the state [register_state] returned, and for every
    other label it answers as it did before the registration; neither
    lookup changes the store. *)
Theorem register_then_get (w : World) (self : loc) (fsm : FiniteStateMachine)
    (label : pyval) :
  machines w !! self = Some fsm →
  ∃ s w',
    FiniteStateMachine.register_state self label w = (Ok s, w') ∧
    FiniteStateMachine.get_state self label w' = (Ok s, w') ∧
    ∀ other, other ≠ label →
      FiniteStateMachine.get_state self other w' =
        (match states fsm !! other with
         | Some st => Ok st
         | None => Raise (KeyError other)
         end, w').
Proof.
  intros E.
  destruct (register_state_step self label w fsm E)
    as (s&w'&fsm'&Hr&E'&Hst&_).
  exists s, w'. split; [done|].
  unfold FiniteStateMachine.get_state. munfold. rewrite E', Hst. split.
  - by rewrite lookup_insert_eq.
  - intros other Hne. rewrite lookup_insert_ne by done.
    by destruct (states fsm !! other).
Qed.

(** X3.  [register_state] builds a new state object on every call.  When
    the label is already registered, in a registry whose states are
    labelled by their keys, the call returns the object registered before,
    leaves every registry as it was, and the new object, though in the
    store, is no entry of the states map. *)
Theorem register_state_builds_eagerly (w : World) (self : loc)
    (fsm : FiniteStateMachine) (label : pyval) (st : loc) :
  machines w !! self = Some fsm →
  states_labelled w self →
  states fsm !! label = Some st →
  ∃ w',
    let new := fresh (dom (state_objs w)) in
    FiniteStateMachine.register_state self label w = (Ok st, w') ∧
    machines w' = machines w ∧
    state_objs w !! new = None ∧
    state_objs w' !! new = Some {| st_parent := self; st_value := label |} ∧
    (∀ s o, state_objs w !! s = Some o → state_objs w' !! s = Some o) ∧
    new ≠ st ∧
    ∀ k, states_of w' self !! k ≠ Some new.
Proof.
  intros E HL Hl. eexists. cbv zeta.
  rewrite register_state_eq. cbv zeta. rewrite E, Hl.
  split; [reflexivity|]. simpl.
  pose proof (fresh_state w) as Hfresh.
  split; [done|]. split; [done|]. split; [apply lookup_insert_eq|].
  assert (∀ k s, states fsm !! k = Some s → s ≠ fresh (dom (state_objs w)))
    as Hold.
  { intros k s Hk ->. unfold states_labelled, states_of in HL.
    rewrite E in HL. specialize (HL k _ Hk). simpl in HL. congruence. }
  split; [|split].
  - intros s o Ho. rewrite lookup_insert_ne; [done|]. intros <-. congruence.
  - intros Heq. by eapply Hold.
  - intros k Hk. unfold states_of in Hk. simpl in Hk. rewrite E in Hk.
    by eapply Hold.
Qed.

(** X4.  After any list of [register_state] calls the registry knows the
    labels it knew before and the labels of the list, and no others, and
    every label known before is still on the state object it had; so the
    order of the calls and repeated labels do not change which labels are
    known. *)
Theorem register_states_labels (w : World) (self : loc)
    (fsm : FiniteStateMachine) (labels : list pyval) :
  machines w !! self = Some fsm →
  dom (states_of (register_states self labels w) self)
    = dom (states fsm) ∪ list_to_set labels ∧
  (∀ k s, states fsm !! k = Some s →
          states_of (register_states self labels w) self !! k = Some s) ∧
  (∀ labels', (∀ k, k ∈ labels ↔ k ∈ labels') →
     dom (states_of (register_states self labels' w) self)
       = dom (states_of (register_states self labels w) self)).
Proof.
  intros E.
  assert (∀ ls, dom (states_of (register_states self ls w) self)
                = dom (states fsm) ∪ list_to_set ls) as Hdom.
  { intros ls.
    destruct (register_states_spec self ls w fsm E) as (fsm'&E'&_&_&Hd&_).
    unfold states_of. rewrite E'. apply set_eq. intros k.
    rewrite elem_of_union, !elem_of_dom, elem_of_list_to_set. apply Hd. }
  split; [apply Hdom|]. split.
  - intros k s Hk.
    destruct (register_states_spec self labels w fsm E) as (fsm'&E'&_&Hsub&_).
    unfold states_of. rewrite E'. by eapply lookup_weaken.
  - intros labels' Hsame. rewrite !Hdom. f_equal.
    apply set_eq. intros k. rewrite !elem_of_list_to_set. by symmetry.
Qed.

(** The store [register_transition] leaves, written out. *)
Lemma register_transition_eq `{Util} (self : loc) (meta : FSMMeta) (w : World)
    (fsm : FiniteStateMachine) :
  machines w !! self = Some fsm →
  let t := fresh (dom (transition_objs w)) in
  let w2 := register_states self
              (List.filter is_valid_literal_state (sources meta ++ [target meta]))
              (set_transition_objs
                 <[t := {| tr_parent := self; tr_meta := meta |}]> w) in
  ∃ fsm2,
    machines w2 !! self = Some fsm2 ∧
    FiniteStateMachine.register_transition self meta w =
      (Ok t,
       set_machines <[self := set_transitions (λ l, l ++ [t]) fsm2]>
         (set_events (λ l, l ++ [EPrintStates (states fsm2)]) w2)).
Proof.
  intros E. cbv zeta.
  set (t := fresh (dom (transition_objs w))).
  set (w1 := set_transition_objs
               <[t := {| tr_parent := self; tr_meta := meta |}]> w).
  assert (machines w1 !! self = Some fsm) as E1 by done.
  destruct (register_states_spec self
              (List.filter is_valid_literal_state (sources meta ++ [target meta]))
              w1 fsm E1) as (fsm2&E2&_).
  exists fsm2. split; [done|].
  unfold FiniteStateMachine.register_transition.
  rewrite bind_eq. unfold FiniteStateMachine.new_transition. fold t w1.
  rewrite bind_eq, (register_loop_eq self _ w1 fsm E1).
  munfold. simpl. rewrite E2. reflexivity.
Qed.

(** What [register_transition] writes and what it leaves alone. *)
Lemma register_transition_events `{Util} (w : World) (self : loc)
    (fsm : FiniteStateMachine) (meta : FSMMeta) :
  machines w !! self = Some fsm →
  ∃ t w',
    FiniteStateMachine.register_transition self meta w = (Ok t, w') ∧
    events w' = events w ++ [EPrintStates (states_of w' self)] ∧
    instances w' = instances w ∧
    equality_cache w' = equality_cache w.
Proof.
  intros E.
  destruct (register_transition_eq self meta w fsm E) as (fsm2&E2&Hr).
  cbv zeta in *. eexists _, _. split; [exact Hr|].
  unfold states_of. simpl. rewrite lookup_insert_eq. simpl.
  match type of E2 with
  | machines (register_states ?s ?ls ?w1) !! _ = _ =>
      destruct (register_states_frame s ls w1) as (_&_&Hi&He&Hq&_)
  end.
  rewrite Hi, He, Hq. done.
Qed.

(** X5.  [register_transition] writes the states map to standard output
    once per call, as the map stands after the declaration's labels were
    registered and before the transition is appended; it writes nothing
    else, and leaves the records and the predicate cache alone. *)
Theorem register_transition_prints_states `{Util} (w : World) (self : loc)
    (fsm : FiniteStateMachine) (meta : FSMMeta) :
  machines w !! self = Some fsm →
  ∃ t w',
    FiniteStateMachine.register_transition self meta w = (Ok t, w') ∧
    events w' = events w ++ [EPrintStates (states_of w' self)] ∧
    instances w' = instances w ∧
    equality_cache w' = equality_cache w.
Proof. apply register_transition_events. Qed.

(** X6.  A declaration none of whose sources and target is a literal state
    (a wildcard source with no target, say) registers no state and builds
    no state object, and its transition is appended all the same. *)
Theorem register_transition_without_literals `{Util} (w : World) (self : loc)
    (fsm : FiniteStateMachine) (meta : FSMMeta) :
  machines w !! self = Some fsm →
  (∀ v, v ∈ sources meta ++ [target meta] → is_valid_literal_state v = false) →
  ∃ t w',
    FiniteStateMachine.register_transition self meta w = (Ok t, w') ∧
    states_of w' self = states fsm ∧
    state_objs w' = state_objs w ∧
    transitions_of w' self = transitions fsm ++ [t] ∧
    transition_objs w' !! t = Some {| tr_parent := self; tr_meta := meta |}.
Proof.
  intros E Hnone.
  assert (List.filter is_valid_literal_state (sources meta ++ [target meta]) = [])
    as Hf.
  { induction (sources meta ++ [target meta]) as [|x xs IH]; [done|]. simpl.
    rewrite (Hnone x) by apply list_elem_of_here.
    apply IH. intros v Hv. apply Hnone. by apply list_elem_of_further. }
  destruct (register_transition_eq self meta w fsm E) as (fsm2&E2&Hr).
  cbv zeta in *. rewrite Hf in *. simpl in E2.
  assert (fsm2 = fsm) as -> by congruence.
  eexists _, _. split; [exact Hr|].
  unfold states_of, transitions_of. simpl. rewrite !lookup_insert_eq. simpl.
  repeat split.
Qed.

Lemma subseteq_dom_eq (m1 m2 : gmap pyval loc) :
  m1 ⊆ m2 → (∀ k, is_Some (m2 !! k) → is_Some (m1 !! k)) → m1 = m2.
Proof.
  intros Hsub Hdom. apply map_eq. intros k.
  destruct (m2 !! k) as [s|] eqn:E2.
  - destruct (Hdom k) as [s' E1]; [by eexists|].
    pose proof (lookup_weaken _ _ _ _ E1 Hsub). congruence.
  - destruct (m1 !! k) as [s|] eqn:E1; [|done].
    pose proof (lookup_weaken _ _ _ _ E1 Hsub). congruence.
Qed.


Lemma register_transitions_le `{Util} (self : loc) (metas : list FSMMeta)
    (w : World) : world_le w (register_transitions self metas w).
Proof.
  revert w. induction metas as [|meta rest IH]; intros w; simpl.
  - apply world_le_refl.
  - eapply world_le_trans; [apply mono_register_transition | apply IH].
Qed.

(** X7.  Registering a declaration a second time, whatever was registered in
    between, leaves the states map exactly as it was: no label is added and
    none moves to another state object.  The transition list still grows by
    a transition object different from the first one. *)
Theorem register_transition_again_keeps_states `{Util} (w : World) (self : loc)
    (fsm : FiniteStateMachine) (meta : FSMMeta) (between : list FSMMeta) :
  machines w !! self = Some fsm →
  ∃ t1 w1 t2 w3,
    let w2 := register_transitions self between w1 in
    FiniteStateMachine.register_transition self meta w = (Ok t1, w1) ∧
    FiniteStateMachine.register_transition self meta w2 = (Ok t2, w3) ∧
    states_of w3 self = states_of w2 self ∧
    transitions_of w3 self = transitions_of w2 self ++ [t2] ∧
    t1 ≠ t2.
Proof.
  intros E.
  destruct (register_transition_spec self meta w fsm E)
    as (w1&fsm1&Hr1&Ht1&E1&_&_&Hdom1&_).
  cbv zeta in *.
  destruct (register_transitions_spec self between w1 fsm1 E1) as (fsm2&E2&Hdom2).
  destruct (register_transition_spec self meta _ fsm2 E2)
    as (w3&fsm3&Hr3&_&E3&Htr3&Hsub3&Hdom3&_).
  cbv zeta in *.
  eexists _, w1, _, w3. cbv zeta.
  split; [exact Hr1|]. split; [exact Hr3|].
  unfold states_of, transitions_of. rewrite E2, E3.
  split; [|split; [done|]].
  - symmetry. apply subseteq_dom_eq; [done|].
    intros k Hk. apply Hdom3 in Hk as [Hk|Hk]; [done|].
    apply Hdom2. left. apply Hdom1. by right.
  - intros Heq.
    destruct (register_transitions_le self between w1) as (_&_&_&Hsub&_).
    assert (transition_objs w1 !! fresh (dom (transition_objs w)) =
              Some {| tr_parent := self; tr_meta := meta |}) as Hin
      by (rewrite Ht1; apply lookup_insert_eq).
    pose proof (lookup_weaken _ _ _ _ Hin Hsub) as Hin2.
    rewrite Heq, fresh_transition in Hin2. discriminate.
Qed.

(** ** Attribute access, further *)

Lemma get_total `{Util} (meta : FSMMeta) (i : option loc) (owner : TableClass)
    (w : World) (col : Column) :
  handle_ok w owner → find_fsm_column owner = Ok col →
  ∃ v w', FsmTransition.get meta i owner w = (Ok v, w').
Proof.
  intros Hok Hf. unfold handle_ok in Hok.
  destruct (lookup_handle w owner) as [r|] eqn:Hc.
  - destruct Hok as [fsm E].
    destruct (get_again meta i owner w r fsm Hc E) as (v&w'&_&Hg&_).
    by exists v, w'.
  - destruct (get_first meta i owner w col Hc Hf) as (v&w'&_&Hg&_).
    by exists v, w'.
Qed.

(** The registry an access leaves at [view_machine], and what else it
    leaves as it was. *)
Lemma get_effects `{Util} (meta : FSMMeta) (i : option loc) (owner : TableClass)
    (w w' : World) (v : BoundTransition) :
  FsmTransition.get meta i owner w = (Ok v, w') →
  ∃ w0 fsm0 fsm',
    FsmTransition.machine_root owner w = (Ok (view_machine v), w0) ∧
    machines w0 !! view_machine v = Some fsm0 ∧
    machines w' !! view_machine v = Some fsm' ∧
    (∀ r, r ≠ view_machine v → machines w' !! r = machines w !! r) ∧
    class_handle w' = class_handle w0 ∧
    instances w' = instances w ∧
    equality_cache w' = equality_cache w ∧
    events w' = events w ++ [EPrintStates (states fsm')] ∧
    table_class fsm' = table_class fsm0 ∧
    column_name fsm' = column_name fsm0 ∧
    transitions fsm' = transitions fsm0 ++ [view_transition v] ∧
    states fsm0 ⊆ states fsm' ∧
    (∀ k, is_Some (states fsm' !! k) ↔
          is_Some (states fsm0 !! k) ∨
          (k ∈ sources meta ++ [target meta] ∧ is_valid_literal_state k = true)).
Proof.
  intros Hg. destruct (get_inv _ _ _ _ _ _ Hg) as (w0&Hroot&Hr).
  destruct (machine_root_frame _ _ _ _ Hroot) as (_&_&Hi0&He0&Hq0).
  assert (∀ r, r ≠ view_machine v → machines w0 !! r = machines w !! r) as Hm0.
  { revert Hroot. unfold FsmTransition.machine_root. rewrite bind_eq.
    unfold get_world at 1.
    destruct (lookup_handle w owner) as [r'|].
    - by intros [= <- <-].
    - rewrite bind_eq. unfold FiniteStateMachine.init. rewrite bind_eq.
      unfold lift_result. destruct (find_fsm_column owner) as [col|e]; [|done].
      unfold FiniteStateMachine.new_machine. intros [= <- <-] r Hne. simpl.
      by rewrite lookup_insert_ne. }
  destruct (register_transition_ok_machine _ _ _ _ _ Hr) as [fsm0 E0].
  destruct (register_transition_spec _ meta w0 fsm0 E0)
    as (w2&fsm'&Hr2&_&E'&Htr&Hsub&Hdom&Hc&Hi&Hm&_).
  cbv zeta in *. rewrite Hr in Hr2. injection Hr2 as Ht <-.
  destruct (register_transition_events w0 _ fsm0 meta E0)
    as (t&w3&Hr3&Hev&_&Hq).
  rewrite Hr in Hr3. injection Hr3 as _ <-.
  unfold states_of in Hev. rewrite E' in Hev.
  assert (table_class fsm' = table_class fsm0 ∧
          column_name fsm' = column_name fsm0) as [Htc Hcn].
  { pose proof (mono_register_transition (view_machine v) meta w0) as Hmono.
    rewrite Hr in Hmono. simpl in Hmono. destruct Hmono as (Hmono&_).
    destruct (Hmono _ _ E0) as (f&Ef&(?&_&?&_)).
    assert (f = fsm') as -> by congruence. done. }
  exists w0, fsm0, fsm'.
  split; [done|]. split; [done|]. split; [done|]. split.
  { intros r Hne. rewrite Hm by done. by apply Hm0. }
  split; [done|]. split; [congruence|]. split; [congruence|].
  split; [by rewrite Hev, He0|]. split; [done|]. split; [done|].
  split; [by rewrite Htr, Ht|]. split; [done|]. exact Hdom.
Qed.

Lemma machine_root_handle (owner : TableClass) (w w0 : World) (r : loc) :
  FsmTransition.machine_root owner w = (Ok r, w0) →
  lookup_handle w0 owner = Some r ∧
  (∀ c, c ≠ cls_id owner → class_handle w0 !! c = class_handle w !! c) ∧
  match lookup_handle w owner with
  | Some r' => r' = r ∧ class_handle w0 = class_handle w
  | None => class_handle w0 = <[cls_id owner := r]> (class_handle w) ∧
            machines w !! r = None
  end.
Proof.
  unfold FsmTransition.machine_root. rewrite bind_eq. unfold get_world at 1.
  destruct (lookup_handle w owner) as [r'|] eqn:Hc.
  - by intros [= <- <-].
  - rewrite bind_eq. unfold FiniteStateMachine.init. rewrite bind_eq.
    unfold lift_result. destruct (find_fsm_column owner) as [col|e]; [|done].
    unfold FiniteStateMachine.new_machine. intros [= <- <-]. simpl. split.
    + apply lookup_handle_own. simpl. apply lookup_insert_eq.
    + split; [|split; [done | apply fresh_machine]].
      intros c Hne. by rewrite lookup_insert_ne.
Qed.

(** X8.  An attribute access that returns changes one registry only, the
    one behind the view, which is the one the class attribute resolves to
    afterwards.  When the attribute resolved before the access, on the class
    or through its [__mro__], that registry is the one used and no class has
    its attribute set; when it did not, the registry is new and is stored on
    the accessed class.  No other class ever has its own attribute set or
    changed, every other registry is as before, the records and the
    predicate cache are untouched, and the one thing written to standard
    output is that registry's states map. *)
Theorem access_touches_one_registry `{Util} (meta : FSMMeta) (i : option loc)
    (owner : TableClass) (w w' : World) (v : BoundTransition) :
  FsmTransition.get meta i owner w = (Ok v, w') →
  lookup_handle w' owner = Some (view_machine v) ∧
  match lookup_handle w owner with
  | Some r => r = view_machine v ∧ class_handle w' = class_handle w
  | None => class_handle w' !! cls_id owner = Some (view_machine v) ∧
            machines w !! view_machine v = None
  end ∧
  (∀ c, c ≠ cls_id owner → class_handle w' !! c = class_handle w !! c) ∧
  (∀ r, r ≠ view_machine v → machines w' !! r = machines w !! r) ∧
  instances w' = instances w ∧
  equality_cache w' = equality_cache w ∧
  events w' = events w ++ [EPrintStates (states_of w' (view_machine v))].
Proof.
  intros Hg.
  destruct (get_effects _ _ _ _ _ _ Hg)
    as (w0&fsm0&fsm'&Hroot&_&E'&Hm&Hc&Hi&Hq&Hev&_).
  destruct (machine_root_handle _ _ _ _ Hroot) as (Hh&Hother&Hcase).
  unfold states_of. rewrite E', (lookup_handle_ext _ _ _ Hc), Hc.
  split; [done|]. split.
  { destruct (lookup_handle w owner) as [r|].
    - destruct Hcase as [-> Hsame]. by rewrite Hsame.
    - destruct Hcase as [Hins Hnew]. split; [|done].
      rewrite Hins. apply lookup_insert_eq. }
  repeat split; try done.
Qed.

(** X9.  No two accesses that return hand out the same transition object,
    whether they read the same declaration or not and whatever is accessed
    in between: each view carries the object its own access made. *)
Theorem accesses_make_distinct_transitions `{Util}
    (meta1 meta2 : FSMMeta) (i1 i2 : option loc) (owner1 owner2 : TableClass)
    (between : list Access) (w w1 w2 : World) (v1 v2 : BoundTransition) :
  FsmTransition.get meta1 i1 owner1 w = (Ok v1, w1) →
  FsmTransition.get meta2 i2 owner2 (accesses between w1) = (Ok v2, w2) →
  view_transition v1 ≠ view_transition v2.
Proof.
  intros Hg1 Hg2 Heq.
  destruct (get_inv _ _ _ _ _ _ Hg1) as (w0&_&Hr1).
  destruct (get_inv _ _ _ _ _ _ Hg2) as (w0'&Hroot2&Hr2).
  destruct (register_transition_ok _ _ _ _ _ Hr1) as (_&Hin1).
  destruct (register_transition_ok _ _ _ _ _ Hr2) as (Ht2&_).
  destruct (machine_root_frame _ _ _ _ Hroot2) as (Htr&_).
  destruct (accesses_le between w1) as (_&_&_&Hsub&_).
  pose proof (lookup_weaken _ _ _ _ Hin1 Hsub) as Hin.
  rewrite Heq, Ht2, Htr, fresh_transition in Hin. discriminate.
Qed.

(** X10.  A setup error is not remembered: on a class on which no registry
    resolves and whose FSM column cannot be resolved, every access, however
    many are made, raises the same error and leaves the store exactly as it
    was. *)
Theorem setup_error_on_every_access `{Util} (owner : TableClass) (e : exn)
    (w : World) (l : list Access) :
  find_fsm_column owner = Raise e →
  lookup_handle w owner = None →
  Forall (λ a, acc_owner a = owner) l →
  accesses l w = w ∧
  Forall (λ a, FsmTransition.get (acc_meta a) (acc_instance a) (acc_owner a) w
               = (Raise e, w)) l.
Proof.
  intros Hf Hc Hall. induction Hall as [|a l Ha Hall IH]; simpl.
  - split; [done | constructor].
  - assert (FsmTransition.get (acc_meta a) (acc_instance a) (acc_owner a) w
            = (Raise e, w)) as Hg by (rewrite Ha; by apply get_fail).
    rewrite Hg. simpl. destruct IH as [IH1 IH2].
    split; [done|]. by constructor.
Qed.

(** The view an instance access returns is instance-bound, wraps the
    accessed record and has an empty [__dict__]. *)
Lemma get_instance_view `{Util} (meta : FSMMeta) (i : loc)
    (owner : TableClass) (w w' : World) (v : BoundTransition) :
  FsmTransition.get meta (Some i) owner w = (Ok v, w') →
  ∃ b, v = InstanceBound b ∧
       ib_sa_fsm_self b = i ∧
       instance (ib_state_machine b) = i ∧
       ib_dict b = ∅.
Proof.
  rewrite get_unfold.
  destruct (FsmTransition.machine_root owner w) as [[r|e] w0]; [|done].
  destruct (FiniteStateMachine.register_transition r meta w0) as [[t|e] w2];
    [|done].
  intros [= <- <-]. eexists. split; [reflexivity|]. done.
Qed.

(** X11.  On the view an instance access returns, calling the view itself
    ([record.attr()], "is this the current state") raises [AttributeError]
    at its first line, in whatever store it is called: it reads
    [_sa_fsm_bound_meta], which is never bound.  The view wraps the
    accessed record and the registry the class attribute resolves to. *)
Theorem instance_call_on_accessed_view `{Util} (meta : FSMMeta) (i : loc)
    (owner : TableClass) (w w' : World) (v : BoundTransition) :
  FsmTransition.get meta (Some i) owner w = (Ok v, w') →
  ∃ b, v = InstanceBound b ∧
       ib_sa_fsm_self b = i ∧
       instance (ib_state_machine b) = i ∧
       lookup_handle w' owner = Some (cls_fsm (ib_state_machine b)) ∧
       ∀ w'', InstanceBoundFsmTransition.call b w'' =
                (Raise (AttributeError "_sa_fsm_bound_meta"), w'').
Proof.
  intros Hg.
  destruct (get_instance_view _ _ _ _ _ _ Hg) as (b&->&Hself&Hinst&Hd).
  destruct (get_effects _ _ _ _ _ _ Hg) as (w0&_&_&Hroot&_&_&_&Hc&_).
  destruct (machine_root_handle _ _ _ _ Hroot) as (Hh&_).
  exists b. split; [done|]. split; [done|]. split; [done|].
  split; [by rewrite (lookup_handle_ext _ _ _ Hc)|]. intros w''.
  unfold InstanceBoundFsmTransition.call, getattr. by rewrite Hd.
Qed.

(** X12.  On a view whose [__dict__] binds the two names [set] reads, and
    with checks that leave the store alone, [can_proceed] answers the
    conjunction of the two checks, and [set] hands over to
    [to_next_state] exactly when [can_proceed] answers [True]; otherwise it
    raises, [PreconditionError] when only the guards fail, and when the
    source is illegal [InvalidSourceStateError] or whatever reading the
    current state for the message raised, the guards not being asked. *)
Theorem set_agrees_with_can_proceed (b : InstanceBoundFsmTransition)
    (bm : BoundMeta) (fn_name : string) (a : CallArgs) (w : World)
    (possible met : bool) :
  ib_dict b !! "_sa_fsm_bound_meta" = Some (ABoundMeta bm) →
  ib_dict b !! "_sa_fsm_transition_fn" = Some (AFunction fn_name) →
  transition_possible bm w = (Ok possible, w) →
  (possible = true → conditions_met bm a w = (Ok met, w)) →
  InstanceBoundFsmTransition.can_proceed b a w = (Ok (possible && met), w) ∧
  InstanceBoundFsmTransition.set b a w =
    if possible && met then to_next_state bm a w
    else if possible then
      (Raise (PreconditionError "Preconditions are not satisfied."), w)
    else
      match bm_current_state bm w with
      | (Ok st, w2) =>
          (Raise (InvalidSourceStateError
                    "Unable to switch from {} using method {}" st fn_name), w2)
      | (Raise e, w2) => (Raise e, w2)
      end.
Proof.
  intros Hbm Hfn Hp Hc.
  unfold InstanceBoundFsmTransition.can_proceed,
    InstanceBoundFsmTransition.set, getattr.
  rewrite Hbm, Hfn. munfold. simpl. rewrite Hp.
  destruct possible; simpl.
  - rewrite (Hc eq_refl). by destruct met.
  - split; [done|].
    by destruct (bm_current_state bm w) as [[st|e] w2].
Qed.

Lemma current_state_eq (sm : InstanceBoundStateMachine) (w : World)
    (fsm : FiniteStateMachine) (attrs : Attrs) (raw : pyval) :
  machines w !! cls_fsm sm = Some fsm →
  instances w !! instance sm = Some attrs →
  attrs !! column_name fsm = Some raw →
  current_state sm w =
    match states fsm !! raw with
    | None => (Raise (KeyError raw), w)
    | Some st => (Ok st, w)
    end.
Proof.
  intros E Ei Ea.
  unfold current_state, current_raw_value, getattr_instance,
    FiniteStateMachine.get_state.
  munfold. simpl. rewrite E, Ei, Ea. simpl. rewrite E.
  by destruct (states fsm !! raw).
Qed.

(** X13.  States are registered as declarations are accessed, not before.
    After an access made on a record of a class on which no registry
    resolved before, neither its own nor an inherited one, so that the
    access built the registry, the current state of that record resolves
    exactly when its raw value is a literal source or the literal target of
    the accessed declaration; for any other raw value, one only other
    declarations mention included, [current_state] raises [KeyError]. *)
Theorem current_state_after_first_access `{Util} (owner : TableClass)
    (col : Column) (w : World) (meta : FSMMeta) (i : loc) (attrs : Attrs)
    (raw : pyval) :
  find_fsm_column owner = Ok col →
  lookup_handle w owner = None →
  instances w !! i = Some attrs →
  attrs !! name col = Some raw →
  ∃ b w',
    FsmTransition.get meta (Some i) owner w = (Ok (InstanceBound b), w') ∧
    (raw ∈ sources meta ++ [target meta] ∧ is_valid_literal_state raw = true →
     ∃ s, current_state (ib_state_machine b) w' = (Ok s, w') ∧
          states_of w' (cls_fsm (ib_state_machine b)) !! raw = Some s) ∧
    (¬ (raw ∈ sources meta ++ [target meta] ∧ is_valid_literal_state raw = true) →
     current_state (ib_state_machine b) w' = (Raise (KeyError raw), w')).
Proof.
  intros Hf Hc Hi Ha.
  destruct (get_first meta (Some i) owner w col Hc Hf) as (v&w'&_&Hg&_).
  destruct (get_instance_view _ _ _ _ _ _ Hg) as (b&->&_&Hinst&_).
  destruct (get_effects _ _ _ _ _ _ Hg)
    as (w0&fsm0&fsm'&Hroot&E0&E'&_&_&Hi'&_&_&_&Hcn&_&_&Hdom).
  rewrite (machine_root_built _ _ _ Hc Hf) in Hroot.
  injection Hroot as Hr <-. simpl in E0. rewrite <- Hr in E0.
  rewrite lookup_insert_eq in E0. injection E0 as <-. simpl in *.
  exists b, w'. split; [done|].
  assert (current_state (ib_state_machine b) w' =
            match states fsm' !! raw with
            | None => (Raise (KeyError raw), w')
            | Some st => (Ok st, w')
            end) as Hcur.
  { apply (current_state_eq _ _ fsm' attrs).
    - done.
    - by rewrite Hinst, Hi'.
    - by rewrite Hcn. }
  rewrite Hcur. unfold states_of. rewrite E'. split.
  - intros Hlit. destruct (proj2 (Hdom raw) (or_intror Hlit)) as [s Hs].
    rewrite Hs. by exists s.
  - intros Hnot. destruct (states fsm' !! raw) as [s|] eqn:Hs; [|done].
    exfalso. destruct (proj1 (Hdom raw)) as [[? Hk]|Hk]; [by eexists| |done].
    by rewrite lookup_empty in Hk.
Qed.


(** X15.  Looking a state up changes nothing: [get_state],
    [current_raw_value] and [current_state] leave the store exactly as they
    found it, whether they return or raise, on any registry reference, label
    and record. *)
Theorem lookups_leave_store (self : loc) (label : pyval)
    (sm : InstanceBoundStateMachine) (w : World) :
  (FiniteStateMachine.get_state self label w).2 = w ∧
  (current_raw_value sm w).2 = w ∧
  (current_state sm w).2 = w.
Proof.
  assert (∀ r l w0, (FiniteStateMachine.get_state r l w0).2 = w0) as Hget.
  { intros r l w0. unfold FiniteStateMachine.get_state. munfold.
    destruct (machines w0 !! r) as [fsm|]; [|done].
    by destruct (states fsm !! l). }
  assert ((current_raw_value sm w).2 = w
          ∧ ∀ raw w1, current_raw_value sm w = (Ok raw, w1) → w1 = w) as [Hraw Hok].
  { unfold current_raw_value, getattr_instance. munfold.
    destruct (machines w !! cls_fsm sm) as [fsm|]; [|by split].
    destruct (instances w !! instance sm) as [attrs|]; [|by split].
    destruct (attrs !! column_name fsm); split; try done; by intros ?? [= _ <-]. }
  split; [apply Hget|]. split; [exact Hraw|].
  unfold current_state. rewrite bind_eq.
  destruct (current_raw_value sm w) as [[raw|e] w1] eqn:Hc.
  - rewrite (Hok _ _ eq_refl). apply Hget.
  - exact Hraw.
Qed.

(** X16.  The record an attribute is read on has no part in what the access
    does to the store: read on the class or on any record, the same
    declaration leaves the same store, raises the same error if it raises,
    and otherwise yields views over the same registry and the same new
    transition object, class-bound for the class and instance-bound, around
    that record, for a record. *)
Theorem access_ignores_instance `{Util} (meta : FSMMeta) (owner : TableClass)
    (w : World) :
  (∀ r w' v,
     FsmTransition.get meta None owner w = (Ok v, w') →
     (∃ b, v = ClassBound b) ∧
     ∃ b, FsmTransition.get meta (Some r) owner w = (Ok (InstanceBound b), w') ∧
          cls_fsm (ib_state_machine b) = view_machine v ∧
          instance (ib_state_machine b) = r ∧
          ib_transition b = view_transition v ∧
          ib_sa_fsm_owner_cls b = owner) ∧
  (∀ i w' e,
     FsmTransition.get meta None owner w = (Raise e, w') →
     FsmTransition.get meta i owner w = (Raise e, w')).
Proof.
  split.
  - intros rec w' v. rewrite (get_unfold meta None), (get_unfold meta (Some rec)).
    destruct (FsmTransition.machine_root owner w) as [[r|e] w0]; [|done].
    destruct (FiniteStateMachine.register_transition r meta w0) as [[t|e] w2];
      [|done].
    intros [= <- <-]. split; [by eexists|].
    eexists. split; [reflexivity|]. done.
  - intros i w' e. rewrite (get_unfold meta None), (get_unfold meta i).
    destruct (FsmTransition.machine_root owner w) as [[r|e0] w0]; [|done].
    by destruct (FiniteStateMachine.register_transition r meta w0) as [[t|e1] w2].
Qed.

(** ** The theorems at work on the example model *)

Lemma world1_registry :
  machines Example.world1 !! Example.registry = Some Example.machine1.
Proof. vm_compute. reflexivity. Defined.

Lemma get_state_lookup_witness :
  machines Example.world1 !! Example.registry = Some Example.machine1 ∧
  FiniteStateMachine.get_state Example.registry (PStr "archived") Example.world1
    = (Raise (KeyError (PStr "archived")), Example.world1) ∧
  FiniteStateMachine.get_state Example.registry (PStr "draft") Example.world1
    = (Ok 1%positive, Example.world1) ∧
  current_state {| cls_fsm := Example.registry; instance := Example.record |}
    Example.world1 = (Ok 1%positive, Example.world1).
Proof.
  destruct (get_state_lookup Example.world1 Example.registry Example.machine1
              world1_registry) as (Hget&_&Hcur).
  split; [exact world1_registry|].
  split; [exact (Hget (PStr "archived"))|].
  split; [exact (Hget (PStr "draft"))|].
  refine (Hcur Example.record {["state" := PStr "draft"]} (PStr "draft") _ _);
    vm_compute; reflexivity.
Defined.

Lemma world1_labelled : states_labelled Example.world1 Example.registry.
Proof. apply (bool_decide_unpack _). vm_compute. exact I. Defined.

Lemma register_state_idempotent_witness :
  machines Example.world1 !! Example.registry = Some Example.machine1 ∧
  states_labelled Example.world1 Example.registry ∧
  let w := register_states Example.registry [PStr "archived"] Example.world1 in
  ∃ s w1 w2,
    FiniteStateMachine.register_state Example.registry (PStr "draft") w = (Ok s, w1) ∧
    FiniteStateMachine.register_state Example.registry (PStr "draft") w1 = (Ok s, w2) ∧
    states_of w1 Example.registry !! PStr "draft" = Some s ∧
    states_of w2 Example.registry = states_of w1 Example.registry ∧
    one_state_per_label w Example.registry ∧
    one_state_per_label w1 Example.registry ∧
    one_state_per_label w2 Example.registry.
Proof.
  split; [exact world1_registry|]. split; [exact world1_labelled|].
  exact (register_state_idempotent Example.world1 Example.registry
           Example.machine1 [PStr "archived"] (PStr "draft")
           world1_registry world1_labelled).
Defined.

Lemma register_transition_registers_literals_witness :
  is_valid_literal_state (Util := literal_util) WILDCARD = false ∧
  machines Example.world1 !! Example.registry = Some Example.machine1 ∧
  states Example.machine1 !! WILDCARD = None ∧
  ∃ t w',
    FiniteStateMachine.register_transition (H := literal_util) Example.registry
      Example.publish
      (register_transitions (H := literal_util) Example.registry
         [Example.submit] Example.world1) = (Ok t, w') ∧
    (∀ v, v ∈ sources Example.publish ++ [target Example.publish] →
          is_valid_literal_state (Util := literal_util) v = true →
          is_Some (states_of w' Example.registry !! v)) ∧
    (∀ k, is_Some (states_of w' Example.registry !! k) ↔
          is_Some (states Example.machine1 !! k) ∨
          ∃ m, m ∈ [Example.submit] ++ [Example.publish] ∧
               k ∈ sources m ++ [target m] ∧
               is_valid_literal_state (Util := literal_util) k = true) ∧
    states_of w' Example.registry !! WILDCARD = None.
Proof.
  assert (states Example.machine1 !! WILDCARD = None) as Hnone
    by (vm_compute; reflexivity).
  split; [reflexivity|]. split; [exact world1_registry|]. split; [exact Hnone|].
  exact (register_transition_registers_literals (H := literal_util)
           Example.world1 Example.registry Example.machine1 [Example.submit]
           Example.publish eq_refl world1_registry Hnone).
Defined.

Lemma registry_built_once_witness :
  find_fsm_column Example.Article = Ok Example.state_col ∧
  lookup_handle Example.world0 Example.Article = None ∧
  ∃ v w1 v' w3,
    let r := view_machine v in
    let w2 := accesses (H := literal_util)
                [{| acc_meta := Example.publish; acc_instance := None;
                    acc_owner := Example.TwoFields |}] w1 in
    FsmTransition.get (H := literal_util) Example.submit (Some Example.record)
      Example.Article Example.world0 = (Ok v, w1) ∧
    machines Example.world0 !! r = None ∧
    dom (machines w1) = {[r]} ∪ dom (machines Example.world0) ∧
    class_handle w1 !! cls_id Example.Article = Some r ∧
    lookup_handle w1 Example.Article = Some r ∧
    FsmTransition.get (H := literal_util) Example.publish None Example.Article w2
      = (Ok v', w3) ∧
    view_machine v' = r ∧
    class_handle w2 !! cls_id Example.Article = Some r ∧
    lookup_handle w2 Example.Article = Some r ∧
    class_handle w3 !! cls_id Example.Article = Some r ∧
    lookup_handle w3 Example.Article = Some r ∧
    dom (machines w3) = dom (machines w2).
Proof.
  split; [reflexivity|]. split; [reflexivity|].
  exact (registry_built_once (H := literal_util) Example.Article
           Example.state_col Example.world0 Example.submit (Some Example.record)
           [{| acc_meta := Example.publish; acc_instance := None;
               acc_owner := Example.TwoFields |}]
           Example.publish None eq_refl eq_refl).
Defined.

(** C7, as stated, fails in two ways.  On a record type without an FSM
    state column the first access raises [SetupError], builds no registry
    and stores none.  On [Feature], a subclass of [Article] with one FSM
    state column of its own, the first access after [Article] was accessed
    finds [Article]'s registry through the [__mro__]: it returns a view over
    that registry, builds none and stores nothing on [Feature]. *)
Lemma registry_not_built_on_first_access :
  (class_handle Example.world0 !! cls_id Example.NoField = None ∧
   FsmTransition.get (H := literal_util) Example.submit None Example.NoField
     Example.world0
   = (Raise (SetupError "No FSMField found in model" []), Example.world0) ∧
   ¬ ∃ v w1,
       FsmTransition.get (H := literal_util) Example.submit None Example.NoField
         Example.world0 = (Ok v, w1) ∧
       class_handle w1 !! cls_id Example.NoField = Some (view_machine v)) ∧
  (∃ col, find_fsm_column Scenario.Feature = Ok col) ∧
  class_handle Example.world1 !! cls_id Scenario.Feature = None ∧
  ∃ v w1,
    FsmTransition.get (H := literal_util) Example.submit None Scenario.Feature
      Example.world1 = (Ok v, w1) ∧
    view_machine v = Example.registry ∧
    class_handle Example.world1 !! cls_id Example.Article = Some Example.registry ∧
    dom (machines w1) = dom (machines Example.world1) ∧
    class_handle w1 !! cls_id Scenario.Feature = None.
Proof.
  assert (FsmTransition.get (H := literal_util) Example.submit None
            Example.NoField Example.world0
          = (Raise (SetupError "No FSMField found in model" []), Example.world0))
    as Hg by (apply get_fail; reflexivity).
  split.
  { split; [reflexivity|]. split; [exact Hg|].
    intros (v&w1&Hv&_). rewrite Hg in Hv. discriminate. }
  split; [eexists; reflexivity|]. split; [reflexivity|].
  eexists _, _. split; [vm_compute; reflexivity|].
  split; [reflexivity|]. split; [vm_compute; reflexivity|].
  split; vm_compute; reflexivity.
Qed.

Lemma world1_handle_ok : handle_ok Example.world1 Example.Article.
Proof. apply (bool_decide_unpack _). vm_compute. exact I. Defined.

Lemma every_access_appends_witness :
  find_fsm_column Example.Article = Ok Example.state_col ∧
  handle_ok Example.world1 Example.Article ∧
  lookup_handle Example.world0 Example.Article = None ∧
  (∃ v w2,
     let r := view_machine v in
     let t := view_transition v in
     FsmTransition.get (H := literal_util) Example.submit None Example.Article
       Example.world1 = (Ok v, w2) ∧
     lookup_handle w2 Example.Article = Some r ∧
     transition_objs Example.world1 !! t = None ∧
     transition_objs w2 !! t =
       Some {| tr_parent := r; tr_meta := Example.submit |} ∧
     transitions_of w2 r = transitions_of Example.world1 r ++ [t]) ∧
  (let w' := accesses (H := literal_util)
               (map (λ i, {| acc_meta := Example.submit; acc_instance := i;
                             acc_owner := Example.Article |})
                    [Some Example.record; None; None]) Example.world0 in
   ∃ r, class_handle w' !! cls_id Example.Article = Some r ∧
        lookup_handle w' Example.Article = Some r ∧
        length (transitions_of w' r) = 3 ∧
        entries_for w' r Example.submit (transitions_of w' r)) ∧
  (let w' := accesses (H := literal_util)
               (map (λ i, {| acc_meta := Example.submit; acc_instance := i;
                             acc_owner := Example.Article |})
                    [None; None]) Example.world1 in
   ∃ r new,
     lookup_handle w' Example.Article = Some r ∧
     transitions_of w' r = transitions_of Example.world1 r ++ new ∧
     length new = 2 ∧
     entries_for w' r Example.submit new).
Proof.
  destruct (every_access_appends (H := literal_util) Example.Article
              Example.state_col Example.submit eq_refl)
    as (Heach&Hcount&Hgrow).
  split; [reflexivity|]. split; [exact world1_handle_ok|].
  split; [reflexivity|]. split; [|split].
  - exact (Heach Example.world1 None world1_handle_ok).
  - exact (Hcount Example.world0 (Some Example.record) [None; None] eq_refl).
  - exact (Hgrow Example.world1 None [None] world1_handle_ok).
Defined.

(** C10, as stated, fails on a record type with two FSM state columns: the
    access raises [SetupError] before [register_transition] is reached, and
    no transition object is made. *)
Lemma access_without_registry_appends_nothing :
  FsmTransition.get (H := literal_util) Example.submit (Some Example.record)
    Example.TwoFields Example.world0
    = (Raise (SetupError "More than one FSMField found in model ({})"
                [Example.state_col; Example.other_col]), Example.world0) ∧
  transition_objs Example.world0 = ∅ ∧
  ¬ ∃ v w2,
      FsmTransition.get (H := literal_util) Example.submit (Some Example.record)
        Example.TwoFields Example.world0 = (Ok v, w2) ∧
      transitions_of w2 (view_machine v) =
        transitions_of Example.world0 (view_machine v) ++ [view_transition v].
Proof.
  assert (FsmTransition.get (H := literal_util) Example.submit
            (Some Example.record) Example.TwoFields Example.world0
          = (Raise (SetupError "More than one FSMField found in model ({})"
                      [Example.state_col; Example.other_col]), Example.world0))
    as Hg by (apply get_fail; reflexivity).
  split; [exact Hg|]. split; [reflexivity|].
  intros (v&w2&Hv&_). rewrite Hg in Hv. discriminate.
Qed.

Lemma record_submit_accessed :
  FsmTransition.get (H := literal_util) Example.submit (Some Example.record)
    Example.Article Example.world0
  = (Ok (InstanceBound Example.record_submit), Example.world1).
Proof. vm_compute. reflexivity. Defined.

Lemma Article_submit_accessed :
  FsmTransition.get (H := literal_util) Example.submit None
    Example.Article Example.world0
  = (Ok (ClassBound Example.Article_submit), Example.world1).
Proof. vm_compute. reflexivity. Defined.

Lemma set_on_accessed_view_witness :
  FsmTransition.get (H := literal_util) Example.submit (Some Example.record)
    Example.Article Example.world0
  = (Ok (InstanceBound Example.record_submit), Example.world1) ∧
  InstanceBoundFsmTransition.set Example.record_submit Example.no_args
    Example.world1
  = (Raise (AttributeError "_sa_fsm_bound_meta"), Example.world1).
Proof.
  split; [exact record_submit_accessed|].
  destruct (set_on_accessed_view (H := literal_util) Example.submit
              Example.record Example.Article Example.world0 Example.world1
              (InstanceBound Example.record_submit) record_submit_accessed)
    as (b&Hb&Hset).
  injection Hb as <-. exact (Hset Example.no_args Example.world1).
Defined.

Lemma can_proceed_on_accessed_view_witness :
  FsmTransition.get (H := literal_util) Example.submit (Some Example.record)
    Example.Article Example.world0
  = (Ok (InstanceBound Example.record_submit), Example.world1) ∧
  InstanceBoundFsmTransition.can_proceed Example.record_submit Example.no_args
    Example.world1
  = (Raise (AttributeError "_sa_fsm_bound_meta"), Example.world1).
Proof.
  split; [exact record_submit_accessed|].
  destruct (can_proceed_on_accessed_view (H := literal_util) Example.submit
              Example.record Example.Article Example.world0 Example.world1
              (InstanceBound Example.record_submit) record_submit_accessed)
    as (b&Hb&Hcan).
  injection Hb as <-. exact (Hcan Example.no_args Example.world1).
Defined.

Lemma call_on_accessed_view_witness :
  FsmTransition.get (H := literal_util) Example.submit None
    Example.Article Example.world0
  = (Ok (ClassBound Example.Article_submit), Example.world1) ∧
  ClassBoundFsmTransition.call Example.Article_submit Example.world1
  = (Raise (AttributeError "_sa_fsm_sqla_handle"), Example.world1).
Proof.
  split; [exact Article_submit_accessed|].
  destruct (call_on_accessed_view (H := literal_util) Example.submit
              Example.Article Example.world0 Example.world1
              (ClassBound Example.Article_submit) Article_submit_accessed)
    as (b&Hb&Hcall).
  injection Hb as <-. exact (Hcall Example.world1).
Defined.

Lemma is_on_accessed_view_witness :
  FsmTransition.get (H := literal_util) Example.submit None
    Example.Article Example.world0
  = (Ok (ClassBound Example.Article_submit), Example.world1) ∧
  ClassBoundFsmTransition.is_ Example.Article_submit (PBool true) Example.world1
  = (Raise (AttributeError "_sa_fsm_sqla_handle"), Example.world1) ∧
  ClassBoundFsmTransition.is_ Example.Article_submit (PStr "published")
    Example.world1
  = (Ok (inr (PBool false)),
     set_events
       (λ l, l ++ [EWarn "Unexpected is_ argument: {!r}" (PStr "published")])
       Example.world1).
Proof.
  split; [exact Article_submit_accessed|].
  destruct (is_on_accessed_view (H := literal_util) Example.submit
              Example.Article Example.world0 Example.world1
              (ClassBound Example.Article_submit) Article_submit_accessed)
    as (b&Hb&Hbool&Hother).
  injection Hb as <-. split.
  - exact (Hbool true Example.world1).
  - exact (Hother (PStr "published") Example.world1 eq_refl).
Defined.

(** With the names bound by hand to the collaborators of section 4.4, the
    scenario of section 8 runs as described: from ["draft"], [submit] can
    proceed and [set] hands back the handler's result with the record moved
    to ["review"]; [publish], whose guard fails, raises [PreconditionError]
    and leaves the record alone. *)
Lemma bound_by_hand_scenario :
  let sm := ib_state_machine Example.record_submit in
  let submit := with_bound_attrs Example.record_submit
                  (SpecBound.bound_meta sm Example.submit) "submit" in
  let publish := with_bound_attrs Example.record_submit
                   (SpecBound.bound_meta sm Example.publish) "publish" in
  (InstanceBoundFsmTransition.can_proceed submit Example.no_args Example.world1).1
    = Ok true ∧
  (InstanceBoundFsmTransition.set submit Example.no_args Example.world1).1
    = Ok (PStr "done") ∧
  instances (InstanceBoundFsmTransition.set submit Example.no_args Example.world1).2
    !! Example.record = Some {["state" := PStr "review"]} ∧
  (InstanceBoundFsmTransition.set publish Example.no_args Example.world1).1
    = Raise (PreconditionError "Preconditions are not satisfied.") ∧
  instances (InstanceBoundFsmTransition.set publish Example.no_args Example.world1).2
    !! Example.record = Some {["state" := PStr "draft"]}.
Proof. vm_compute. repeat split. Qed.

(** ** The further properties at work on the example model *)

Lemma register_then_get_witness :
  machines Example.world1 !! Example.registry = Some Example.machine1 ∧
  ∃ s w',
    FiniteStateMachine.register_state Example.registry (PStr "archived")
      Example.world1 = (Ok s, w') ∧
    FiniteStateMachine.get_state Example.registry (PStr "archived") w' = (Ok s, w') ∧
    ∀ other, other ≠ PStr "archived" →
      FiniteStateMachine.get_state Example.registry other w' =
        (match states Example.machine1 !! other with
         | Some st => Ok st
         | None => Raise (KeyError other)
         end, w').
Proof.
  split; [exact world1_registry|].
  exact (register_then_get Example.world1 Example.registry Example.machine1
           (PStr "archived") world1_registry).
Defined.

Lemma register_state_builds_eagerly_witness :
  machines Example.world1 !! Example.registry = Some Example.machine1 ∧
  states_labelled Example.world1 Example.registry ∧
  states Example.machine1 !! PStr "draft" = Some 1%positive ∧
  ∃ w',
    let new := fresh (dom (state_objs Example.world1)) in
    FiniteStateMachine.register_state Example.registry (PStr "draft")
      Example.world1 = (Ok 1%positive, w') ∧
    machines w' = machines Example.world1 ∧
    state_objs Example.world1 !! new = None ∧
    state_objs w' !! new =
      Some {| st_parent := Example.registry; st_value := PStr "draft" |} ∧
    (∀ s o, state_objs Example.world1 !! s = Some o → state_objs w' !! s = Some o) ∧
    new ≠ 1%positive ∧
    ∀ k, states_of w' Example.registry !! k ≠ Some new.
Proof.
  assert (states Example.machine1 !! PStr "draft" = Some 1%positive) as Hd
    by (vm_compute; reflexivity).
  split; [exact world1_registry|]. split; [exact world1_labelled|].
  split; [exact Hd|].
  exact (register_state_builds_eagerly Example.world1 Example.registry
           Example.machine1 (PStr "draft") 1%positive
           world1_registry world1_labelled Hd).
Defined.

Lemma register_states_labels_witness :
  machines Example.world1 !! Example.registry = Some Example.machine1 ∧
  dom (states_of
         (register_states Example.registry
            [PStr "archived"; PStr "draft"; PStr "archived"] Example.world1)
         Example.registry)
    = dom (states Example.machine1)
      ∪ list_to_set [PStr "archived"; PStr "draft"; PStr "archived"].
Proof.
  split; [exact world1_registry|].
  exact (proj1 (register_states_labels Example.world1 Example.registry
                  Example.machine1
                  [PStr "archived"; PStr "draft"; PStr "archived"]
                  world1_registry)).
Defined.

Lemma register_transition_prints_states_witness :
  machines Example.world1 !! Example.registry = Some Example.machine1 ∧
  ∃ t w',
    FiniteStateMachine.register_transition (H := literal_util) Example.registry
      Example.publish Example.world1 = (Ok t, w') ∧
    events w' = events Example.world1
                ++ [EPrintStates (states_of w' Example.registry)] ∧
    instances w' = instances Example.world1 ∧
    equality_cache w' = equality_cache Example.world1.
Proof.
  split; [exact world1_registry|].
  exact (register_transition_prints_states (H := literal_util) Example.world1
           Example.registry Example.machine1 Example.publish world1_registry).
Defined.

Lemma reset_has_no_literal :
  ∀ v, v ∈ sources Scenario.reset ++ [target Scenario.reset] →
       is_valid_literal_state (Util := literal_util) v = false.
Proof.
  intros v Hv. simpl in Hv.
  apply elem_of_cons in Hv as [->|Hv]; [reflexivity|].
  apply elem_of_cons in Hv as [->|Hv]; [reflexivity|].
  by apply elem_of_nil in Hv.
Defined.

Lemma register_transition_without_literals_witness :
  machines Example.world1 !! Example.registry = Some Example.machine1 ∧
  (∀ v, v ∈ sources Scenario.reset ++ [target Scenario.reset] →
        is_valid_literal_state (Util := literal_util) v = false) ∧
  ∃ t w',
    FiniteStateMachine.register_transition (H := literal_util) Example.registry
      Scenario.reset Example.world1 = (Ok t, w') ∧
    states_of w' Example.registry = states Example.machine1 ∧
    state_objs w' = state_objs Example.world1 ∧
    transitions_of w' Example.registry = transitions Example.machine1 ++ [t] ∧
    transition_objs w' !! t =
      Some {| tr_parent := Example.registry; tr_meta := Scenario.reset |}.
Proof.
  split; [exact world1_registry|]. split; [exact reset_has_no_literal|].
  exact (register_transition_without_literals (H := literal_util) Example.world1
           Example.registry Example.machine1 Scenario.reset
           world1_registry reset_has_no_literal).
Defined.

Lemma register_transition_again_keeps_states_witness :
  machines Example.world1 !! Example.registry = Some Example.machine1 ∧
  ∃ t1 w1 t2 w3,
    let w2 := register_transitions (H := literal_util) Example.registry
                [Example.publish] w1 in
    FiniteStateMachine.register_transition (H := literal_util) Example.registry
      Example.submit Example.world1 = (Ok t1, w1) ∧
    FiniteStateMachine.register_transition (H := literal_util) Example.registry
      Example.submit w2 = (Ok t2, w3) ∧
    states_of w3 Example.registry = states_of w2 Example.registry ∧
    transitions_of w3 Example.registry = transitions_of w2 Example.registry ++ [t2] ∧
    t1 ≠ t2.
Proof.
  split; [exact world1_registry|].
  exact (register_transition_again_keeps_states (H := literal_util)
           Example.world1 Example.registry Example.machine1 Example.submit
           [Example.publish] world1_registry).
Defined.

Lemma access_touches_one_registry_witness :
  FsmTransition.get (H := literal_util) Example.submit (Some Example.record)
    Example.Article Example.world0
  = (Ok (InstanceBound Example.record_submit), Example.world1) ∧
  lookup_handle Example.world1 Example.Article = Some Example.registry ∧
  (class_handle Example.world1 !! cls_id Example.Article
     = Some Example.registry ∧
   machines Example.world0 !! Example.registry = None) ∧
  (∀ c, c ≠ cls_id Example.Article →
        class_handle Example.world1 !! c = class_handle Example.world0 !! c) ∧
  (∀ r, r ≠ Example.registry →
        machines Example.world1 !! r = machines Example.world0 !! r) ∧
  instances Example.world1 = instances Example.world0 ∧
  equality_cache Example.world1 = equality_cache Example.world0 ∧
  events Example.world1 =
    events Example.world0
    ++ [EPrintStates (states_of Example.world1 Example.registry)].
Proof.
  split; [exact record_submit_accessed|].
  exact (access_touches_one_registry (H := literal_util) Example.submit
           (Some Example.record) Example.Article Example.world0 Example.world1
           (InstanceBound Example.record_submit) record_submit_accessed).
Defined.

Lemma Article_submit_accessed_again :
  FsmTransition.get (H := literal_util) Example.submit None Example.Article
    (accesses (H := literal_util)
       [{| acc_meta := Example.publish; acc_instance := None;
           acc_owner := Example.Article |}] Example.world1)
  = (Ok (ClassBound Scenario.Article_submit_again), Scenario.world3).
Proof. vm_compute. reflexivity. Defined.

Lemma accesses_make_distinct_transitions_witness :
  FsmTransition.get (H := literal_util) Example.submit (Some Example.record)
    Example.Article Example.world0
  = (Ok (InstanceBound Example.record_submit), Example.world1) ∧
  FsmTransition.get (H := literal_util) Example.submit None Example.Article
    (accesses (H := literal_util)
       [{| acc_meta := Example.publish; acc_instance := None;
           acc_owner := Example.Article |}] Example.world1)
  = (Ok (ClassBound Scenario.Article_submit_again), Scenario.world3) ∧
  view_transition (InstanceBound Example.record_submit)
    ≠ view_transition (ClassBound Scenario.Article_submit_again).
Proof.
  split; [exact record_submit_accessed|].
  split; [exact Article_submit_accessed_again|].
  exact (accesses_make_distinct_transitions (H := literal_util)
           Example.submit Example.submit (Some Example.record) None
           Example.Article Example.Article
           [{| acc_meta := Example.publish; acc_instance := None;
               acc_owner := Example.Article |}]
           Example.world0 Example.world1 Scenario.world3
           (InstanceBound Example.record_submit)
           (ClassBound Scenario.Article_submit_again)
           record_submit_accessed Article_submit_accessed_again).
Defined.

Lemma setup_error_on_every_access_witness :
  find_fsm_column Example.NoField
    = Raise (SetupError "No FSMField found in model" []) ∧
  lookup_handle Example.world0 Example.NoField = None ∧
  accesses (H := literal_util)
    [{| acc_meta := Example.submit; acc_instance := None;
        acc_owner := Example.NoField |};
     {| acc_meta := Example.publish; acc_instance := Some Example.record;
        acc_owner := Example.NoField |}] Example.world0 = Example.world0 ∧
  Forall (λ a, FsmTransition.get (H := literal_util) (acc_meta a)
                 (acc_instance a) (acc_owner a) Example.world0
               = (Raise (SetupError "No FSMField found in model" []),
                  Example.world0))
    [{| acc_meta := Example.submit; acc_instance := None;
        acc_owner := Example.NoField |};
     {| acc_meta := Example.publish; acc_instance := Some Example.record;
        acc_owner := Example.NoField |}].
Proof.
  split; [reflexivity|]. split; [reflexivity|].
  refine (setup_error_on_every_access (H := literal_util) Example.NoField
            (SetupError "No FSMField found in model" []) Example.world0
            _ eq_refl eq_refl _).
  repeat constructor.
Defined.

Lemma instance_call_on_accessed_view_witness :
  FsmTransition.get (H := literal_util) Example.submit (Some Example.record)
    Example.Article Example.world0
  = (Ok (InstanceBound Example.record_submit), Example.world1) ∧
  InstanceBoundFsmTransition.call Example.record_submit Example.world1
  = (Raise (AttributeError "_sa_fsm_bound_meta"), Example.world1).
Proof.
  split; [exact record_submit_accessed|].
  destruct (instance_call_on_accessed_view (H := literal_util) Example.submit
              Example.record Example.Article Example.world0 Example.world1
              (InstanceBound Example.record_submit) record_submit_accessed)
    as (b&Hb&_&_&_&Hcall).
  injection Hb as <-. exact (Hcall Example.world1).
Defined.

Lemma bound_submit_possible :
  transition_possible
    (SpecBound.bound_meta (ib_state_machine Example.record_submit) Example.submit)
    Example.world1 = (Ok true, Example.world1).
Proof. vm_compute. reflexivity. Defined.

Lemma bound_submit_met :
  conditions_met
    (SpecBound.bound_meta (ib_state_machine Example.record_submit) Example.submit)
    Example.no_args Example.world1 = (Ok true, Example.world1).
Proof. vm_compute. reflexivity. Defined.

Lemma set_agrees_with_can_proceed_witness :
  ib_dict Scenario.bound_submit !! "_sa_fsm_bound_meta"
    = Some (ABoundMeta
              (SpecBound.bound_meta (ib_state_machine Example.record_submit)
                 Example.submit)) ∧
  ib_dict Scenario.bound_submit !! "_sa_fsm_transition_fn"
    = Some (AFunction "submit") ∧
  InstanceBoundFsmTransition.can_proceed Scenario.bound_submit Example.no_args
    Example.world1 = (Ok true, Example.world1) ∧
  InstanceBoundFsmTransition.set Scenario.bound_submit Example.no_args
    Example.world1
  = to_next_state
      (SpecBound.bound_meta (ib_state_machine Example.record_submit)
         Example.submit)
      Example.no_args Example.world1.
Proof.
  assert (ib_dict Scenario.bound_submit !! "_sa_fsm_bound_meta"
          = Some (ABoundMeta
                    (SpecBound.bound_meta (ib_state_machine Example.record_submit)
                       Example.submit))) as Hbm by reflexivity.
  assert (ib_dict Scenario.bound_submit !! "_sa_fsm_transition_fn"
          = Some (AFunction "submit")) as Hfn by reflexivity.
  split; [exact Hbm|]. split; [exact Hfn|].
  exact (set_agrees_with_can_proceed Scenario.bound_submit _ "submit"
           Example.no_args Example.world1 true true Hbm Hfn
           bound_submit_possible (λ _, bound_submit_met)).
Defined.

Lemma current_state_after_first_access_witness :
  find_fsm_column Example.Article = Ok Example.state_col ∧
  lookup_handle Example.world0 Example.Article = None ∧
  instances Example.world0 !! Example.record = Some {["state" := PStr "draft"]} ∧
  ({["state" := PStr "draft"]} : Attrs) !! name Example.state_col
    = Some (PStr "draft") ∧
  ∃ b w',
    FsmTransition.get (H := literal_util) Example.submit (Some Example.record)
      Example.Article Example.world0 = (Ok (InstanceBound b), w') ∧
    (PStr "draft" ∈ sources Example.submit ++ [target Example.submit] ∧
     is_valid_literal_state (Util := literal_util) (PStr "draft") = true →
     ∃ s, current_state (ib_state_machine b) w' = (Ok s, w') ∧
          states_of w' (cls_fsm (ib_state_machine b)) !! PStr "draft" = Some s) ∧
    (¬ (PStr "draft" ∈ sources Example.submit ++ [target Example.submit] ∧
        is_valid_literal_state (Util := literal_util) (PStr "draft") = true) →
     current_state (ib_state_machine b) w' = (Raise (KeyError (PStr "draft")), w')).
Proof.
  assert (instances Example.world0 !! Example.record
          = Some {["state" := PStr "draft"]}) as Hi by (vm_compute; reflexivity).
  assert (({["state" := PStr "draft"]} : Attrs) !! name Example.state_col
          = Some (PStr "draft")) as Ha by (vm_compute; reflexivity).
  split; [reflexivity|]. split; [reflexivity|].
  split; [exact Hi|]. split; [exact Ha|].
  exact (current_state_after_first_access (H := literal_util) Example.Article
           Example.state_col Example.world0 Example.submit Example.record
           {["state" := PStr "draft"]} (PStr "draft") eq_refl eq_refl Hi Ha).
Defined.


Lemma access_ignores_instance_witness :
  FsmTransition.get (H := literal_util) Example.submit None Example.Article
    Example.world0
  = (Ok (ClassBound Example.Article_submit), Example.world1) ∧
  ∃ b,
    FsmTransition.get (H := literal_util) Example.submit (Some Example.record)
      Example.Article Example.world0 = (Ok (InstanceBound b), Example.world1) ∧
    cls_fsm (ib_state_machine b)
      = view_machine (ClassBound Example.Article_submit) ∧
    instance (ib_state_machine b) = Example.record ∧
    ib_transition b = view_transition (ClassBound Example.Article_submit) ∧
    ib_sa_fsm_owner_cls b = Example.Article.
Proof.
  split; [exact Article_submit_accessed|].
  exact (proj2 (proj1 (access_ignores_instance (H := literal_util)
                         Example.submit Example.Article Example.world0)
                  Example.record Example.world1
                  (ClassBound Example.Article_submit) Article_submit_accessed)).
Defined.
